(** * Plot export: the CSV table encoder and the SVG renderer of
      [packages/studio-base/src/panels/Plot/csv.ts]

    The development embeds [generateCSV], [generateSVG], [downloadCSV] and
    [downloadSVG] together with the pieces of the JavaScript runtime they rest
    on: IEEE-754 binary64 numbers, [Math.min], [Math.max], [Math.ceil], the
    remainder, [Number.prototype.toString], [Number.prototype.toFixed] and
    [Array.prototype.join].  The model comes first, then the vocabulary of
    the properties, then the properties themselves. *)

From Stdlib Require Import ZArith NArith List String Ascii Bool Lia Arith.
From Stdlib Require Import QArith Field Lqa.
From Stdlib Require Import DecimalString.
From Stdlib Require Import SpecFloat.
Import ListNotations.

(** ** Completions

    A JavaScript call either returns a value or throws.  The thrown value is
    recorded by the name of its error class. *)

Inductive completion (A : Type) : Type :=
| Normal (a : A)
| Throw (errorName : string).

Arguments Normal {A} a.
Arguments Throw {A} errorName.

Definition bindC {A B : Type} (c : completion A) (k : A -> completion B) : completion B :=
  match c with
  | Normal a => k a
  | Throw e => Throw e
  end.

Declare Scope js_scope.
Delimit Scope js_scope with js.

Notation "x <- c ;; k" := (bindC c (fun x => k))
  (at level 61, c at next level, right associativity) : js_scope.

(** ** Numbers

    A JavaScript number is an IEEE-754 binary64 value.  [spec_float] with
    precision 53 and maximal exponent 1024 is that format, with round to
    nearest even; the operations below are the library's executable
    specification of the IEEE operations. *)

Module Number.

Definition prec : Z := 53.
Definition emax : Z := 1024.

Definition number : Type := spec_float.

Definition NaN : number := S754_nan.
Definition Infinity : number := S754_infinity false.
Definition negInfinity : number := S754_infinity true.

(** The number denoted by an integer literal or by an array length. *)
Definition ofZ (z : Z) : number := binary_normalize prec emax z 0 false.
Definition ofNat (n : nat) : number := ofZ (Z.of_nat n).

Definition add : number -> number -> number := SFadd prec emax.
Definition sub : number -> number -> number := SFsub prec emax.
Definition mul : number -> number -> number := SFmul prec emax.
Definition div : number -> number -> number := SFdiv prec emax.

(** [a < b], [a > b] and [a === b] on numbers. *)
Definition lt (a b : number) : bool := SFltb a b.
Definition gt (a b : number) : bool := SFltb b a.
Definition strictEq (a b : number) : bool := SFeqb a b.

Definition isNaN (a : number) : bool :=
  match a with S754_nan => true | _ => false end.

Definition isFinite (a : number) : bool :=
  match a with
  | S754_zero _ | S754_finite _ _ _ => true
  | _ => false
  end.

Definition isNegZero (a : number) : bool :=
  match a with S754_zero true => true | _ => false end.

Definition isPosZero (a : number) : bool :=
  match a with S754_zero false => true | _ => false end.

(** *** [Math.min] and [Math.max] (ECMA-262, 21.3.2.24 and 21.3.2.25)

    The arguments are scanned from the left starting from [+Infinity]
    (resp. [-Infinity]); a [NaN] argument makes the result [NaN], and [-0]
    counts as smaller than [+0]. *)

Fixpoint Math_min_from (lowest : number) (args : list number) : number :=
  match args with
  | [] => lowest
  | n :: rest =>
      if isNaN n then NaN
      else if isNegZero n && isPosZero lowest then Math_min_from n rest
      else if lt n lowest then Math_min_from n rest
      else Math_min_from lowest rest
  end.

Definition Math_min (args : list number) : number := Math_min_from Infinity args.

Fixpoint Math_max_from (highest : number) (args : list number) : number :=
  match args with
  | [] => highest
  | n :: rest =>
      if isNaN n then NaN
      else if isPosZero n && isNegZero highest then Math_max_from n rest
      else if gt n highest then Math_max_from n rest
      else Math_max_from highest rest
  end.

Definition Math_max (args : list number) : number := Math_max_from negInfinity args.

(** *** [Math.ceil]

    A finite number is [(-1)^s * m * 2^e].  With [e >= 0] it is an integer;
    otherwise the quotient and remainder of [m] by [2^(-e)] give its
    integer part and tell whether a fraction is left. *)

Definition Math_ceil (a : number) : number :=
  match a with
  | S754_finite s m e =>
      if (0 <=? e)%Z then a
      else
        let d := Z.pow 2 (- e) in
        let q := Z.div (Zpos m) d in
        let r := Z.modulo (Zpos m) d in
        if s then binary_normalize prec emax (- q) 0 true
        else binary_normalize prec emax (if (r =? 0)%Z then q else q + 1) 0 false
  | _ => a
  end.

(** *** The remainder [a % b]

    The result has the sign of the dividend and is exact: with both
    operands scaled to the smaller exponent it is the remainder of two
    integers.  A zero divisor or an infinite dividend gives [NaN]. *)

Definition rem (a b : number) : number :=
  match a, b with
  | S754_nan, _ | _, S754_nan => NaN
  | S754_infinity _, _ => NaN
  | _, S754_zero _ => NaN
  | _, S754_infinity _ => a
  | S754_zero _, _ => a
  | S754_finite sa ma ea, S754_finite _ mb eb =>
      let e := Z.min ea eb in
      let r := Z.rem (Zpos ma * Z.pow 2 (ea - e)) (Zpos mb * Z.pow 2 (eb - e)) in
      binary_normalize prec emax (cond_Zopp sa r) e sa
  end.

(** The integer a number is equal to, when it is one. *)
Definition toInteger (a : number) : option Z :=
  match a with
  | S754_zero _ => Some 0%Z
  | S754_finite s m e =>
      if (0 <=? e)%Z then Some (cond_Zopp s (Zpos m * Z.pow 2 e))
      else
        let d := Z.pow 2 (- e) in
        if (Z.modulo (Zpos m) d =? 0)%Z then Some (cond_Zopp s (Z.div (Zpos m) d))
        else None
  | _ => None
  end.

(** *** [Number.prototype.toString] and [Number.prototype.toFixed]

    ECMA-262 [Number::toString] prints [NaN], the zeros and the infinities by
    name, and any other number by the shortest decimal that reads back as
    the same number.  For an integer below [2^53] that decimal is the
    integer's own expansion; for the remaining numbers the digit generation
    is the runtime's, and is taken as the parameter [shortestDecimal]. *)

Definition decimalOfZ (z : Z) : string := NilZero.string_of_int (Z.to_int z).

Fixpoint zeros (n : nat) : string :=
  match n with
  | O => EmptyString
  | S k => String "0" (zeros k)
  end.

(** The digits of the non-negative integer [n] with a point before the last
    [f] of them, padded with zeros on the left up to [f + 1] digits. *)
Definition fixedDigits (n : Z) (f : nat) : string :=
  let m := decimalOfZ n in
  match f with
  | O => m
  | _ =>
      let m := (zeros (S f - String.length m) ++ m)%string in
      let k := String.length m in
      (substring 0 (k - f) m ++ "." ++ substring (k - f) f m)%string
  end.

(** The integer [n] for which [n / 10^f] is closest to [m * 2^e], the larger
    one on a tie. *)
Definition nearestScaled (m : positive) (e : Z) (f : Z) : Z :=
  if (0 <=? e)%Z then Zpos m * Z.pow 2 e * Z.pow 10 f
  else
    let d := Z.pow 2 (- e) in
    Z.div (2 * (Zpos m * Z.pow 10 f) + d) (2 * d).

(** [m * 2^e >= 10^21] *)
Definition atLeast1e21 (m : positive) (e : Z) : bool :=
  if (0 <=? e)%Z then (Z.pow 10 21 <=? Zpos m * Z.pow 2 e)%Z
  else (Z.pow 10 21 * Z.pow 2 (- e) <=? Zpos m)%Z.

Section Printing.

  Variable shortestDecimal : number -> string.

Definition toString (a : number) : string :=
    match a with
    | S754_nan => "NaN"
    | S754_zero _ => "0"
    | S754_infinity s => if s then "-Infinity" else "Infinity"
    | S754_finite _ _ _ =>
        match toInteger a with
        | Some z => if (Z.abs z <? Z.pow 2 53)%Z then decimalOfZ z else shortestDecimal a
        | None => shortestDecimal a
        end
    end.

  (** [a.toFixed(fractionDigits)]: a [RangeError] outside [0..100];
      [toString] for a number that is not finite or is [10^21] or more in
      magnitude; otherwise the sign and the rounded digits. *)
Definition toFixed (a : number) (fractionDigits : Z) : completion string :=
    if ((fractionDigits <? 0) || (100 <? fractionDigits))%Z then Throw "RangeError"
    else
      match a with
      | S754_nan | S754_infinity _ => Normal (toString a)
      | S754_zero _ => Normal (fixedDigits 0 (Z.to_nat fractionDigits))
      | S754_finite s m e =>
          if atLeast1e21 m e then Normal (toString a)
          else
            Normal ((if s then "-" else EmptyString)
                      ++ fixedDigits (nearestScaled m e fractionDigits)
                           (Z.to_nat fractionDigits))%string
      end.

End Printing.

End Number.

Import Number.

(** ** The arithmetic of the layout

    The scaling formulas of [generateSVG] are written once, over the four
    operations and the integer literals.  The program runs them on binary64
    numbers; the rationals give the same formulas their exact reading. *)

Class Arith (N : Type) : Type := {
  lit : Z -> N;
  plus : N -> N -> N;
  minus : N -> N -> N;
  times : N -> N -> N;
  over : N -> N -> N
}.

Declare Scope arith_scope.
Delimit Scope arith_scope with arith.
Notation "a + b" := (plus a b) : arith_scope.
Notation "a - b" := (minus a b) : arith_scope.
Notation "a * b" := (times a b) : arith_scope.
Notation "a / b" := (over a b) : arith_scope.

#[export] Instance binary64 : Arith number :=
  {| lit := ofZ; plus := add; minus := sub; times := mul; over := div |}.

#[export] Instance rational : Arith Q :=
  {| lit := inject_Z; plus := Qplus; minus := Qminus; times := Qmult; over := Qdiv |}.

Section Layout.

Context {N : Type} {arith : Arith N}.
Local Open Scope arith_scope.

Definition svgWidth : N := lit 500.
Definition svgHeight : N := lit 500.
Definition margin : N := lit 40.
Definition tickSize : N := lit 5.

(** [const xScale = (svgWidth - margin * 2) / (xMax - xMin)] *)
Definition xScale (xMin xMax : N) : N := (svgWidth - margin * lit 2) / (xMax - xMin).
(** [const yScale = (svgHeight - margin * 2) / (yMax - yMin)] *)
Definition yScale (yMin yMax : N) : N := (svgHeight - margin * lit 2) / (yMax - yMin).

(** The two coordinates of a path point:
    [margin + (data.x - xMin) * xScale] and
    [svgHeight - margin - (data.y - yMin) * yScale]. *)
Definition pathX (xMin scale x : N) : N := margin + (x - xMin) * scale.
Definition pathY (yMin scale y : N) : N := svgHeight - margin - (y - yMin) * scale.

Definition xTickSize : N := (svgWidth - margin * lit 2) / lit 10.
Definition yTickSize : N := (svgHeight - margin * lit 2) / lit 10.

(** [margin + i * xTickSize] and [svgHeight - margin - i * yTickSize] *)
Definition xPos (i : N) : N := margin + i * xTickSize.
Definition yPos (i : N) : N := svgHeight - margin - i * yTickSize.

(** The value a tick is labelled with: [lo + (hi - lo) * (i / 10)]. *)
Definition tickValue (lo hi i : N) : N := lo + (hi - lo) * (i / lit 10).

End Layout.

(** [const maxPoints = 1000] *)
Definition maxPoints : nat := 1000.

(** ** Strings and arrays *)

Local Open Scope string_scope.

(** The double quote, which a string literal of this file cannot hold: the
    literals below are written with an apostrophe where the source has a double
    quote, and [tpl] puts the double quotes back. *)
Definition dquote : ascii := "034"%char.
Definition apostrophe : ascii := "039"%char.

Fixpoint tpl (s : string) : string :=
  match s with
  | EmptyString => EmptyString
  | String c rest =>
      String (if Ascii.eqb c apostrophe then dquote else c) (tpl rest)
  end.

Definition newline : string := String "010"%char EmptyString.

(** [parts.join(sep)] on an array of strings. *)
Definition join (sep : string) (parts : list string) : string := String.concat sep parts.

(** [array.push(item)] *)
Definition push {A : Type} (array : list A) (item : A) : list A := (array ++ [item])%list.

(** ** The collaborators

    [formatTimeRaw] is imported from [util/time], and [Time] is the timestamp
    type it formats; [shortestDecimal] is the runtime's digit generation (see
    [Number.toString]); [inheritedString] is the string the runtime gives for
    a member of [Object.prototype].

    [spreadLimit] is the largest number of array elements a call can spread
    into its arguments, as in [f(a, ...array)]: the arguments go on the
    engine's stack, and a longer array ends the call with a [RangeError].
    ECMA-262 sets no limit; the limit depends on the engine and on the size of
    its stack (about 125 000 elements with the defaults of V8), and no engine
    spreads fewer than ten thousand. *)

Class Host : Type := {
  Time : Type;
  formatTimeRaw : Time -> string;
  shortestDecimal : number -> string;
  inheritedString : string -> string;
  spreadLimit : N;
  spreadLimit_min : (10000 <= spreadLimit)%N
}.

(** The values that reach a table cell. [VInherited key] is the member [key]
    of [Object.prototype]. *)
Inductive jsvalue : Type :=
| VUndefined
| VString (s : string)
| VNumber (n : number)
| VInherited (key : string).

(** The names [Object.prototype] defines: a lookup of one of them in an object
    literal finds the inherited member. *)
Definition objectPrototypeKeys : list string :=
  [ "constructor"; "hasOwnProperty"; "isPrototypeOf"; "propertyIsEnumerable";
    "toLocaleString"; "toString"; "valueOf"; "__defineGetter__";
    "__defineSetter__"; "__lookupGetter__"; "__lookupSetter__"; "__proto__" ].

Section DataModel.

Context {host : Host}.

Definition str (n : number) : string := toString shortestDecimal n.

(** Modelled from the spec: [internalTypes.ts] is not among the sources; a
    datum's [value] is a number or a string. *)
Inductive PlotValue : Type :=
| NumberValue (n : number)
| StringValue (s : string).

(** Modelled from the spec: [Datum] and [DataSet] of [internalTypes.ts], with
    the fields [csv.ts] reads. *)
Record Datum : Type := {
  x : number;
  y : number;
  value : PlotValue;
  receiveTime : Time;
  headerStamp : option Time
}.

Record DataSet : Type := {
  label : option string;
  data : list Datum
}.

(** At run time a [PlotXAxisVal] is a string; the type allows the four
    keys of [getCVSColName]. *)
Definition PlotXAxisVal : Type := string.

Definition plotXAxisVals : list PlotXAxisVal :=
  ["timestamp"; "index"; "custom"; "currentCustom"].

(** *** The table encoder *)

Definition valueOfLabel (l : option string) : jsvalue :=
  match l with
  | Some s => VString s
  | None => VUndefined
  end.

Definition valueOfPlotValue (v : PlotValue) : jsvalue :=
  match v with
  | NumberValue n => VNumber n
  | StringValue s => VString s
  end.

Definition getCSVRow (label : option string) (data : Datum) : list jsvalue :=
  let receiveTimeFloat := formatTimeRaw (receiveTime data) in
  let stampTime :=
    match headerStamp data with
    | Some stamp => formatTimeRaw stamp
    | None => EmptyString
    end in
  [VNumber (x data); VString receiveTimeFloat; VString stampTime;
   valueOfLabel label; valueOfPlotValue (value data)].

(** The lookup [{timestamp: ..., index: ..., custom: ..., currentCustom: ...}[xAxisVal]]. *)
Definition getCVSColName (xAxisVal : PlotXAxisVal) : jsvalue :=
  if xAxisVal =? "timestamp" then VString "elapsed time"
  else if xAxisVal =? "index" then VString "index"
  else if xAxisVal =? "custom" then VString "x value"
  else if xAxisVal =? "currentCustom" then VString "x value"
  else if existsb (String.eqb xAxisVal) objectPrototypeKeys then VInherited xAxisVal
  else VUndefined.

(** The string [Array.prototype.join] takes for an element: empty for
    [undefined], [ToString] of the element otherwise. *)
Definition elementString (v : jsvalue) : string :=
  match v with
  | VUndefined => EmptyString
  | VString s => s
  | VNumber n => str n
  | VInherited key => inheritedString key
  end.

(** [row.toString()], which is [row.join(",")]. *)
Definition rowString (row : list jsvalue) : string :=
  join "," (map elementString row).

Definition headLine (xAxisVal : PlotXAxisVal) : list jsvalue :=
  [getCVSColName xAxisVal; VString "receive time"; VString "header.stamp";
   VString "topic"; VString "value"].

(** The array [combinedLines] when the two loops are over. *)
Definition combinedLines (datasets : list DataSet) (xAxisVal : PlotXAxisVal)
  : list (list jsvalue) :=
  let combinedLines := push [] (headLine xAxisVal) in
  fold_left
    (fun combinedLines dataset =>
       fold_left
         (fun combinedLines datum => push combinedLines (getCSVRow (label dataset) datum))
         (data dataset) combinedLines)
    datasets combinedLines.

Definition generateCSV (datasets : list DataSet) (xAxisVal : PlotXAxisVal)
  : completion string :=
  Normal (join newline (map rowString (combinedLines datasets xAxisVal))).

End DataModel.

(** ** The vector renderer *)

(** The bounding box of the data. *)
Record Range : Type := {
  xMin : number;
  xMax : number;
  yMin : number;
  yMax : number
}.

(** [Math.ceil(dataPoints / maxPoints)].  [dataPoints] is an array length, an
    integer below [2^32]: the binary64 quotient by 1000 and its ceiling are the
    integer ceiling of the quotient (see [resampleFactor_binary64] for the
    binary64 computation on a range of lengths). *)
Definition resampleFactor (dataPoints : nat) : nat :=
  ((dataPoints + maxPoints - 1) / maxPoints)%nat.

(** [index % resampleFactor === 0].  Both are integers; [index % 0] is [NaN],
    which is not [=== 0]. *)
Definition onStride (resampleFactor index : nat) : bool :=
  match resampleFactor with
  | O => false
  | _ => Nat.eqb (index mod resampleFactor) 0
  end.

(** [array.filter((item, index) => keep(item, index))], the scan being at
    [index]. *)
Fixpoint filterFrom {A : Type} (keep : A -> nat -> bool) (index : nat) (array : list A)
  : list A :=
  match array with
  | [] => []
  | item :: rest =>
      if keep item index then item :: filterFrom keep (S index) rest
      else filterFrom keep (S index) rest
  end.

Definition filter_index {A : Type} (keep : A -> nat -> bool) (array : list A) : list A :=
  filterFrom keep 0 array.

(** The values [i] takes in [for (let i = lo; i <= hi; i++)]. *)
Definition countTo (lo hi : Z) : list Z :=
  map (fun k => (lo + Z.of_nat k)%Z) (seq 0 (Z.to_nat (hi + 1 - lo))).

(** A loop whose body may throw: the state is threaded through the items, and
    the first throw ends the loop. *)
Fixpoint forEach {A S : Type} (items : list A) (body : S -> A -> completion S) (s : S)
  : completion S :=
  match items with
  | [] => Normal s
  | item :: rest => bindC (body s item) (forEach rest body)
  end.

Section Vector.

Context {host : Host}.
Local Open Scope arith_scope.
Local Open Scope js_scope.

(** [let svgData = `...`]: the declaration and the opening [svg] tag. *)
Definition svgOpen : string :=
  (tpl "
    <?xml version='1.0' encoding='UTF-8' standalone='no'?>
    <svg
      width='"
    ++ str svgWidth
    ++ tpl "'
      height='"
    ++ str svgHeight
    ++ tpl "'
      version='1.1'
      id='svg6'
      xmlns='http://www.w3.org/2000/svg'
      xmlns:svg='http://www.w3.org/2000/svg'>
      <defs id='defs10' />")%string.

(** [const xAxis] *)
Definition xAxis : string :=
  (tpl "
    <line
      x1='"
    ++ str margin
    ++ tpl "'
      y1='"
    ++ str (svgHeight - margin)
    ++ tpl "'
      x2='"
    ++ str (svgWidth - margin)
    ++ tpl "'
      y2='"
    ++ str (svgHeight - margin)
    ++ tpl "'
      style='stroke:#000000;stroke-width:1' />
    <text
      x='"
    ++ str (svgWidth / lit 2)
    ++ tpl "'
      y='"
    ++ str (svgHeight - lit 5)
    ++ tpl "'
      text-anchor='middle'
      dominant-baseline='hanging'
      style='fill:#000000;font-size:12px'>x</text>")%string.

(** The element pushed on [xTicks] for one tick. *)
Definition xTick (xPos : number) (label : string) : string :=
  (tpl "
      <line
        x1='"
    ++ str xPos
    ++ tpl "'
        y1='"
    ++ str (svgHeight - margin)
    ++ tpl "'
        x2='"
    ++ str xPos
    ++ tpl "'
        y2='"
    ++ str (svgHeight - margin + tickSize)
    ++ tpl "'
        style='stroke:#000000;stroke-width:1' />
      <text
        x='"
    ++ str xPos
    ++ tpl "'
        y='"
    ++ str (svgHeight - margin + tickSize + lit 10)
    ++ tpl "'
        text-anchor='middle'
        dominant-baseline='hanging'
        style='fill:#000000;font-size:12px'>"
    ++ label
    ++ tpl "</text>")%string.

(** [const yAxis] *)
Definition yAxis : string :=
  (tpl "
    <line
      x1='"
    ++ str margin
    ++ tpl "'
      y1='"
    ++ str margin
    ++ tpl "'
      x2='"
    ++ str margin
    ++ tpl "'
      y2='"
    ++ str (svgHeight - margin)
    ++ tpl "'
      style='stroke:#000000;stroke-width:1' />
    <text
      x='5'
      y='"
    ++ str (svgHeight / lit 2)
    ++ tpl "'
      text-anchor='start'
      dominant-baseline='middle'
      style='fill:#000000;font-size:12px;transform:rotate(-90deg);transform-origin:5px "
    ++ str (svgHeight / lit 2)
    ++ tpl "px;'>y</text>")%string.

(** The element pushed on [yTicks] for one tick. *)
Definition yTick (yPos : number) (label : string) : string :=
  (tpl "
      <line
        x1='"
    ++ str (margin - tickSize)
    ++ tpl "'
        y1='"
    ++ str yPos
    ++ tpl "'
        x2='"
    ++ str margin
    ++ tpl "'
        y2='"
    ++ str yPos
    ++ tpl "'
        style='stroke:#000000;stroke-width:1' />
      <text
        x='"
    ++ str (margin - tickSize - lit 5)
    ++ tpl "'
        y='"
    ++ str yPos
    ++ tpl "'
        text-anchor='end'
        dominant-baseline='middle'
        style='fill:#000000;font-size:12px'>"
    ++ label
    ++ tpl "</text>")%string.

(** The [path] element appended for one dataset. *)
Definition pathElement (pathData : string) : string :=
  (tpl "
      <path
        style='opacity:0.712203;fill:none;stroke:#000000;stroke-width:2px;stop-color:#000000'
        d='M"
    ++ pathData
    ++ tpl "' />")%string.

(** The closing tag appended last. *)
Definition svgClose : string :=
  (tpl "
    </svg>")%string.

(** [f(first, ...rest)]: the elements of [rest] are spread into the arguments
    of the call, which throws a [RangeError] when there are more of them than
    the engine takes. *)
Definition spread (f : list number -> number) (first : number) (rest : list number)
  : completion number :=
  if (N.of_nat (List.length rest) <=? spreadLimit)%N then Normal (f (first :: rest))
  else Throw "RangeError".

(** The body of the first loop of [generateSVG]: the range grows to hold the
    points of one more dataset. *)
Definition extendRange (r : Range) (dataset : DataSet) : completion Range :=
  let xData := map x (data dataset) in
  let yData := map y (data dataset) in
  xMin' <- spread Math_min (xMin r) xData ;;
  xMax' <- spread Math_max (xMax r) xData ;;
  yMin' <- spread Math_min (yMin r) yData ;;
  yMax' <- spread Math_max (yMax r) yData ;;
  Normal {| xMin := xMin'; xMax := xMax'; yMin := yMin'; yMax := yMax' |}.

(** [let xMin = Infinity; let xMax = -Infinity; let yMin = Infinity;
  let yMax = -Infinity] *)
Definition emptyRange : Range :=
{| xMin := Infinity; xMax := negInfinity; yMin := Infinity; yMax := negInfinity |}.

(** The data range when the first loop is over. *)
Definition dataRange (datasets : list DataSet) : completion Range :=
  forEach datasets extendRange emptyRange.

(** The array [xTicks] after its loop. *)
Definition xTicks (r : Range) : completion (list string) :=
  forEach (countTo 0 10)
    (fun xTicks i =>
       let xPos := xPos (lit i) in
       label <- toFixed shortestDecimal (tickValue (xMin r) (xMax r) (lit i)) 1 ;;
       Normal (push xTicks (xTick xPos label)))
    [].

(** The array [yTicks] after its loop. *)
Definition yTicks (r : Range) : completion (list string) :=
  forEach (countTo 0 10)
    (fun yTicks i =>
       let yPos := yPos (lit i) in
       label <- toFixed shortestDecimal (tickValue (yMin r) (yMax r) (lit i)) 2 ;;
       Normal (push yTicks (yTick yPos label)))
    [].

Definition resampledData (dataset : DataSet) : list Datum :=
  let dataPoints := List.length (data dataset) in
  let resampleFactor := resampleFactor dataPoints in
  filter_index (fun _ index => onStride resampleFactor index) (data dataset).

(** One point of the path: the two coordinates with a comma between. *)
Definition pathPoint (r : Range) (xScale yScale : number) (data : Datum) : string :=
  (str (pathX (xMin r) xScale (x data)) ++ ","
     ++ str (pathY (yMin r) yScale (y data)))%string.

Definition pathData (r : Range) (xScale yScale : number) (dataset : DataSet) : string :=
  join " " (map (pathPoint r xScale yScale) (resampledData dataset)).

(** [svgData] after the loop over the datasets. *)
Definition appendPaths (r : Range) (xScale yScale : number) (datasets : list DataSet)
    (svgData : string) : string :=
  fold_left
    (fun svgData dataset =>
       (svgData ++ pathElement (pathData r xScale yScale dataset))%string)
    datasets svgData.

Definition generateSVG (datasets : list DataSet) : completion string :=
  let svgData := svgOpen in
  r <- dataRange datasets ;;
  let xScale := xScale (xMin r) (xMax r) in
  let yScale := yScale (yMin r) (yMax r) in
  xTicks <- xTicks r ;;
  let svgData := (svgData ++ (xAxis ++ join EmptyString xTicks))%string in
  yTicks <- yTicks r ;;
  let svgData := (svgData ++ (yAxis ++ join EmptyString yTicks))%string in
  let svgData := appendPaths r xScale yScale datasets svgData in
  let svgData := (svgData ++ svgClose)%string in
  Normal svgData.

End Vector.

(** ** The export triggers

    [downloadFiles], imported from [util/download], is the sink.  What a call
    of it does is outside the program; the model records the calls it
    receives, in order, each with its argument. *)

Record Blob : Type := {
  blobParts : list string;
  blobType : string
}.

Record DownloadItem : Type := {
  blob : Blob;
  fileName : string
}.

Definition SinkCalls : Type := list (list DownloadItem).

(** A computation that may call the sink and may throw: from the calls the
    sink has received so far, its completion and the calls the sink has
    received when it ends. *)
Definition Effect (A : Type) : Type := SinkCalls -> completion A * SinkCalls.

Definition downloadFiles (files : list DownloadItem) : Effect unit :=
  fun calls => (Normal tt, push calls files).

(** A computation that does not call the sink. *)
Definition noCall {A : Type} (c : completion A) : Effect A :=
  fun calls => (c, calls).

(** Sequencing: a throw ends the computation, and the calls already made
    stay made. *)
Definition bindE {A B : Type} (m : Effect A) (k : A -> Effect B) : Effect B :=
  fun calls =>
    match m calls with
    | (Normal a, calls') => k a calls'
    | (Throw e, calls') => (Throw e, calls')
    end.

Section Triggers.

Context {host : Host}.
Local Open Scope js_scope.

Definition downloadCSV (datasets : list DataSet) (xAxisVal : PlotXAxisVal) : Effect unit :=
  bindE (noCall (generateCSV datasets xAxisVal))
    (fun csvData =>
       let blob := {| blobParts := [csvData]; blobType := "text/csv;charset=utf-8;" |} in
       downloadFiles [ {| blob := blob; fileName := "plot_data.csv" |} ]).

Definition downloadSVG (datasets : list DataSet) : Effect unit :=
  bindE (noCall (generateSVG datasets))
    (fun svgData =>
       let blob := {| blobParts := [svgData]; blobType := "image/svg+xml;charset=utf-8;" |} in
       downloadFiles [ {| blob := blob; fileName := "plot_data.svg" |} ]).

End Triggers.

(** * The vocabulary of the properties *)

(** The value of a completion that returned. *)
Definition returned (c : completion string) : string :=
  match c with
  | Normal s => s
  | Throw _ => EmptyString
  end.

(** The indices of the ticks of an axis. *)
Definition tickIndices : list Z := [0; 1; 2; 3; 4; 5; 6; 7; 8; 9; 10]%Z.

(** Structural equality of numbers, which tells [-0] from [+0]. *)
Definition sameNumber (a b : number) : bool :=
  match a, b with
  | S754_zero s, S754_zero s' => Bool.eqb s s'
  | S754_infinity s, S754_infinity s' => Bool.eqb s s'
  | S754_nan, S754_nan => true
  | S754_finite s m e, S754_finite s' m' e' => Bool.eqb s s' && Pos.eqb m m' && Z.eqb e e'
  | _, _ => false
  end.

(** What a lower bound of the range is when the data are finite. *)
Definition finiteOrInfinity (a : number) : Prop := isFinite a = true \/ a = Infinity.

(** The number of occurrences of a character in a string. *)
Fixpoint countChar (c : ascii) (s : string) : nat :=
  match s with
  | EmptyString => 0
  | String c' rest => (if Ascii.eqb c c' then 1 else 0) + countChar c rest
  end.

(** The line feed and the comma, the two separators of the table. *)
Definition lineFeed : ascii := "010"%char.
Definition comma : ascii := ","%char.

(** The lines of a text: what stands between its line feeds, which is what
    [text.split(sep)] gives for a separator of one character. *)
Fixpoint splitOn (sep : ascii) (s : string) : list string :=
  match s with
  | EmptyString => [EmptyString]
  | String c rest =>
      if Ascii.eqb c sep then EmptyString :: splitOn sep rest
      else
        match splitOn sep rest with
        | first :: others => String c first :: others
        | [] => [String c EmptyString]
        end
  end.

(** ** The markup as it reads

    The elements of the document as a reader finds them, with the constants
    of the layout computed: a tick of the x axis is a line from [(pos, 460)]
    to [(pos, 465)] and a text at [(pos, 475)]; a tick of the y axis is a
    line from [(35, pos)] to [(40, pos)] and a text at [(30, pos)]. *)

Definition xTickMarkup (pos label : string) : string :=
  (tpl "
      <line
        x1='"
    ++ pos
    ++ tpl "'
        y1='460'
        x2='"
    ++ pos
    ++ tpl "'
        y2='465'
        style='stroke:#000000;stroke-width:1' />
      <text
        x='"
    ++ pos
    ++ tpl "'
        y='475'
        text-anchor='middle'
        dominant-baseline='hanging'
        style='fill:#000000;font-size:12px'>"
    ++ label
    ++ tpl "</text>")%string.

Definition yTickMarkup (pos label : string) : string :=
  (tpl "
      <line
        x1='35'
        y1='"
    ++ pos
    ++ tpl "'
        x2='40'
        y2='"
    ++ pos
    ++ tpl "'
        style='stroke:#000000;stroke-width:1' />
      <text
        x='30'
        y='"
    ++ pos
    ++ tpl "'
        text-anchor='end'
        dominant-baseline='middle'
        style='fill:#000000;font-size:12px'>"
    ++ label
    ++ tpl "</text>")%string.

(** A key for the order of the numbers that are not [NaN]: the class (the
    infinities, the negative and positive finite numbers, the zeros), and
    within the finite numbers the exponent and the mantissa, negated for the
    negative ones.  [<] on numbers is the lexicographic order of the keys. *)
Definition orderKey (a : number) : Z * Z * Z :=
  match a with
  | S754_infinity true => (-2, 0, 0)%Z
  | S754_finite true m e => (-1, - e, - Zpos m)%Z
  | S754_zero _ => (0, 0, 0)%Z
  | S754_finite false m e => (1, e, Zpos m)%Z
  | S754_infinity false => (2, 0, 0)%Z
  | S754_nan => (3, 0, 0)%Z
  end.

Definition keyLt (p q : Z * Z * Z) : Prop :=
  let '(c1, e1, m1) := p in
  let '(c2, e2, m2) := q in
  (c1 < c2 \/ (c1 = c2 /\ (e1 < e2 \/ (e1 = e2 /\ m1 < m2))))%Z.

(** A number that is not [NaN]. *)
Definition isNumber (a : number) : Prop := isNaN a = false.

(** [Math.min] and [Math.max] folded over lists of numbers, as the first loop
    of [generateSVG] folds them over the datasets. *)
Definition minOver (lists : list (list number)) (lowest : number) : number :=
  fold_left (fun lowest l => Math_min (lowest :: l)) lists lowest.

Definition maxOver (lists : list (list number)) (highest : number) : number :=
  fold_left (fun highest l => Math_max (highest :: l)) lists highest.

Section Vocabulary.

Context {host : Host}.

(** The data rows in the order the two loops of [generateCSV] visit them. *)
Definition dataRows (datasets : list DataSet) : list (list jsvalue) :=
  flat_map (fun dataset => map (getCSVRow (label dataset)) (data dataset)) datasets.

(** The label of tick [i] between [lo] and [hi], with [digits] decimals. *)
Definition tickLabel (lo hi : number) (digits i : Z) : string :=
  returned (toFixed shortestDecimal (tickValue lo hi (lit i)) digits).

(** The ticks of the two axes, as the loops of [generateSVG] push them. *)
Definition xTickList (r : Range) : list string :=
  map (fun i => xTick (xPos (lit i)) (tickLabel (xMin r) (xMax r) 1 i)) (countTo 0 10).

Definition yTickList (r : Range) : list string :=
  map (fun i => yTick (yPos (lit i)) (tickLabel (yMin r) (yMax r) 2 i)) (countTo 0 10).

(** Everything before the paths: the opening, the two axes and their ticks. *)
Definition frame (r : Range) : string :=
  (svgOpen ++ xAxis ++ join EmptyString (xTickList r)
     ++ yAxis ++ join EmptyString (yTickList r))%string.

(** The [path] elements, one per dataset, in the order of the datasets. *)
Definition pathElements (r : Range) (datasets : list DataSet) : list string :=
  map (fun dataset =>
         pathElement
           (pathData r (xScale (xMin r) (xMax r)) (yScale (yMin r) (yMax r)) dataset))
      datasets.

(** Every coordinate of the dataset is a finite number. *)
Definition finiteData (dataset : DataSet) : Prop :=
  Forall (fun datum => isFinite (x datum) = true /\ isFinite (y datum) = true)
         (data dataset).

(** No dataset of the list has a point. *)
Definition noPoints (datasets : list DataSet) : Prop :=
  Forall (fun dataset => data dataset = []) datasets.

(** No cell of the row holds the character [c] once printed. *)
Definition cellsWithout (c : ascii) (row : list jsvalue) : Prop :=
  Forall (fun cell => countChar c (elementString cell) = 0%nat) row.

(** The number of points of the datasets. *)
Definition pointCount (datasets : list DataSet) : nat :=
  list_sum (map (fun dataset => List.length (data dataset)) datasets).

(** No coordinate of the dataset is [NaN]. *)
Definition numericData (dataset : DataSet) : Prop :=
  Forall (fun datum => isNaN (x datum) = false /\ isNaN (y datum) = false)
         (data dataset).

(** The [x] and the [y] of the points, dataset by dataset. *)
Definition xLists (datasets : list DataSet) : list (list number) :=
  map (fun dataset => map x (data dataset)) datasets.

Definition yLists (datasets : list DataSet) : list (list number) :=
  map (fun dataset => map y (data dataset)) datasets.

(** No dataset has more points than a call spreads. *)
Definition withinSpreadLimit (datasets : list DataSet) : Prop :=
  Forall (fun dataset => (N.of_nat (List.length (data dataset)) <= spreadLimit)%N)
         datasets.

(** The range the first loop of [generateSVG] ends with when no call throws:
    the minima and the maxima over the datasets, from the infinities. *)
Definition boundingBox (datasets : list DataSet) : Range :=
  {| xMin := minOver (xLists datasets) Infinity;
     xMax := maxOver (xLists datasets) negInfinity;
     yMin := minOver (yLists datasets) Infinity;
     yMax := maxOver (yLists datasets) negInfinity |}.

(** What [generateSVG] reads of a dataset: the coordinates of its points. *)
Definition coordinates (dataset : DataSet) : list (number * number) :=
  map (fun datum => (x datum, y datum)) (data dataset).

(** What [generateCSV] reads of a dataset: its label and, for each point,
    [x], the value and the two timestamps. *)
Definition tableFields (dataset : DataSet)
  : option string * list (number * PlotValue * Time * option Time) :=
  (label dataset,
   map (fun datum => (x datum, value datum, receiveTime datum, headerStamp datum))
       (data dataset)).

End Vocabulary.

(** ** Well-nested markup

    A scanner for the markup [generateSVG] writes: character data, processing
    instructions [<? ... ?>], opening tags with quoted attribute values,
    self-closing tags and closing tags.  It keeps the stack of the elements
    that are open. *)

Inductive scanMode : Type :=
| InText
| AfterLt
| InInstruction (question : bool)
| InOpenName (name : string)
| InAttributes (name : string) (slash : bool)
| InValue (name : string)
| InCloseName (name : string).

Record scanner : Type := {
  openTags : list string;
  mode : scanMode
}.

Definition isNameChar (c : ascii) : bool :=
  let n := nat_of_ascii c in
  ((65 <=? n) && (n <=? 90) || (97 <=? n) && (n <=? 122) || (48 <=? n) && (n <=? 57)
   || (n =? 58) || (n =? 45) || (n =? 95) || (n =? 46))%nat.

Definition isSpace (c : ascii) : bool :=
  let n := nat_of_ascii c in
  ((n =? 32) || (n =? 9) || (n =? 10) || (n =? 13))%nat.

Definition scanChar (st : scanner) (c : ascii) : option scanner :=
  let stack := openTags st in
  let continue m := Some {| openTags := stack; mode := m |} in
  match mode st with
  | InText =>
      if Ascii.eqb c "<" then continue AfterLt
      else if Ascii.eqb c ">" then None
      else continue InText
  | AfterLt =>
      if Ascii.eqb c "?" then continue (InInstruction false)
      else if Ascii.eqb c "/" then continue (InCloseName EmptyString)
      else if isNameChar c then continue (InOpenName (String c EmptyString))
      else None
  | InInstruction question =>
      if question && Ascii.eqb c ">" then continue InText
      else continue (InInstruction (Ascii.eqb c "?"))
  | InOpenName name =>
      if isNameChar c then continue (InOpenName (name ++ String c EmptyString))
      else if isSpace c then continue (InAttributes name false)
      else if Ascii.eqb c ">" then Some {| openTags := name :: stack; mode := InText |}
      else if Ascii.eqb c "/" then continue (InAttributes name true)
      else None
  | InAttributes name slash =>
      if Ascii.eqb c dquote then (if slash then None else continue (InValue name))
      else if Ascii.eqb c ">" then
        Some {| openTags := if slash then stack else name :: stack; mode := InText |}
      else if Ascii.eqb c "<" then None
      else continue (InAttributes name (Ascii.eqb c "/"))
  | InValue name =>
      if Ascii.eqb c dquote then continue (InAttributes name false)
      else if Ascii.eqb c "<" then None
      else continue (InValue name)
  | InCloseName name =>
      if Ascii.eqb c ">" then
        match stack with
        | top :: rest =>
            if String.eqb top name then Some {| openTags := rest; mode := InText |}
            else None
        | [] => None
        end
      else if isNameChar c then continue (InCloseName (name ++ String c EmptyString))
      else None
  end.

Fixpoint scan (st : scanner) (s : string) : option scanner :=
  match s with
  | EmptyString => Some st
  | String c rest =>
      match scanChar st c with
      | Some st' => scan st' rest
      | None => None
      end
  end.

(** Every tag is closed, in order, and the text ends outside markup. *)
Definition wellNested (s : string) : bool :=
  match scan {| openTags := []; mode := InText |} s with
  | Some {| openTags := []; mode := InText |} => true
  | _ => false
  end.

(** Inside the [svg] element, between two children. *)
Definition insideSvg : scanner := {| openTags := ["svg"]; mode := InText |}.

(** A character that is neither a bracket of the markup nor a double quote,
    and a text made of such characters. *)
Definition plainChar (c : ascii) : bool :=
  negb (Ascii.eqb c "<" || Ascii.eqb c ">" || Ascii.eqb c dquote).

Fixpoint plainText (s : string) : bool :=
  match s with
  | EmptyString => true
  | String c rest => plainChar c && plainText rest
  end.

(** ** Binary64 rounding *)

Section RoundingVocabulary.

Local Open Scope Z_scope.

(** [m * 2^e] as a number, for a value that binary64 represents. *)
Definition scaled (m e : Z) : number := binary_normalize prec emax m e false.

(** A positive normal number: 53 significant bits and an exponent within
    range; neither zero, subnormal, infinite nor [NaN]. *)
Definition isPositiveNormal (a : number) : bool :=
  match a with
  | S754_finite false m e =>
      (Zpos (digits2_pos m) =? 53)%Z && (-1074 <=? e)%Z && (e <=? 971)%Z
  | _ => false
  end.

(** [located N D mrs]: the quotient [N / D] lies between the mantissa of
    [mrs] and the next integer, and the two bits of [mrs] tell where: on the
    mantissa, below the middle, on the middle or above it. *)
Definition located (N D : Z) (mrs : shr_record) : Prop :=
  0 < D /\ 0 <= shr_m mrs
  /\ 0 <= N - shr_m mrs * D < D
  /\ match shr_r mrs, shr_s mrs with
     | false, false => N - shr_m mrs * D = 0
     | false, true => 0 < 2 * (N - shr_m mrs * D) < D
     | true, false => 2 * (N - shr_m mrs * D) = D
     | true, true => D < 2 * (N - shr_m mrs * D)
     end.


(** [rounded sx M e]: the number of sign [sx] and value [M * 2^e] for a
    mantissa [M] from [2^52] to [2^53], the latter written [2^52 * 2^(e+1)];
    an exponent above 971 is an overflow. *)
Definition rounded (sx : bool) (M e : Z) : number :=
  if M <? 2 ^ 53 then
    if e <=? 971 then S754_finite sx (Z.to_pos M) e else S754_infinity sx
  else
    if e + 1 <=? 971 then S754_finite sx (Z.to_pos (2 ^ 52)) (e + 1)
    else S754_infinity sx.

End RoundingVocabulary.

(** ** Sample data

    A host to run the model on: timestamps are a pair of seconds and
    nanoseconds printed with a point between; the two runtime parameters
    print a placeholder; a call spreads up to 125 000 elements. *)

Definition sampleHost : Host :=
  {| Time := Z * Z;
     formatTimeRaw := fun t => (decimalOfZ (fst t) ++ "." ++ decimalOfZ (snd t))%string;
     shortestDecimal := fun _ => "#"%string;
     inheritedString := fun key => key;
     spreadLimit := 125000;
     spreadLimit_min := ltac:(vm_compute; discriminate) |}.

(** The point [(a, b)], with [b] as its value. *)
Definition sampleDatum (a b : Z) : @Datum sampleHost :=
  @Build_Datum sampleHost (ofZ a) (ofZ b) (NumberValue (ofZ b)) (0%Z, 0%Z) None.


(** One dataset of two points, [(0, 0)] and [(a, b)]. *)
Definition segment (a b : Z) : list (@DataSet sampleHost) :=
  [ {| label := Some "segment"; data := [sampleDatum 0 0; sampleDatum a b] |} ].

(** One dataset of two points whose [x] are 0 and [2^-1074], the smallest
    positive number, and whose [y] are 0 and 1. *)
Definition narrowSegment : list (@DataSet sampleHost) :=
  [ {| label := Some "narrow";
       data := [sampleDatum 0 0;
                @Build_Datum sampleHost (S754_finite false 1 (-1074)) (ofZ 1)
                             (NumberValue (ofZ 1)) (0%Z, 0%Z) None] |} ].

(** Two datasets: a segment, and one point whose [x] is [NaN]. *)
Definition segmentAndNaN : list (@DataSet sampleHost) :=
  [ {| label := Some "segment"; data := [sampleDatum 0 0; sampleDatum 10 10] |};
    {| label := Some "gap";
       data := [@Build_Datum sampleHost NaN (ofZ 5) (NumberValue (ofZ 5)) (0%Z, 0%Z) None] |} ].

(** The segment from [(0, 0)] to [(10, 10)] with other labels and values, and
    the same segment with other ordinates. *)
Definition relabelledSegment : list (@DataSet sampleHost) :=
  [ {| label := None;
       data := [@Build_Datum sampleHost (ofZ 0) (ofZ 0) (StringValue "low") (1%Z, 2%Z) None;
                @Build_Datum sampleHost (ofZ 10) (ofZ 10) (StringValue "high") (3%Z, 4%Z)
                             (Some (5%Z, 6%Z))] |} ].

Definition flattenedSegment : list (@DataSet sampleHost) :=
  [ {| label := Some "segment";
       data := [@Build_Datum sampleHost (ofZ 0) (ofZ 7) (NumberValue (ofZ 0)) (0%Z, 0%Z) None;
                @Build_Datum sampleHost (ofZ 10) (ofZ 7) (NumberValue (ofZ 10)) (0%Z, 0%Z)
                             None] |} ].

(** One dataset of two points whose [x] are [- 2^1023] and [2^1023], and
    whose [y] are 0 and 1. *)
Definition wideSegment : list (@DataSet sampleHost) :=
  [ {| label := Some "wide";
       data := [sampleDatum (- 2 ^ 1023) 0; sampleDatum (2 ^ 1023) 1] |} ].

(** One dataset of one point whose label holds a line feed. *)
Definition brokenLabel : list (@DataSet sampleHost) :=
  [ {| label := Some ("a" ++ newline ++ "b")%string; data := [sampleDatum 0 0] |} ].

(** One dataset of 200 000 points, more than [sampleHost] spreads. *)
Definition longDataset : list (@DataSet sampleHost) :=
  [ {| label := Some "long"; data := repeat (sampleDatum 0 0) (N.to_nat 200000) |} ].

(** * Properties *)

(** ** Strings and loops *)

Lemma append_assoc (a b c : string) : ((a ++ b) ++ c = a ++ (b ++ c))%string.
Proof.
  induction a as [| ch a IH]; simpl; [reflexivity | now rewrite IH].
Qed.

Lemma append_empty_r (a : string) : (a ++ EmptyString = a)%string.
Proof.
  induction a as [| ch a IH]; simpl; [reflexivity | now rewrite IH].
Qed.

(** A [join] with a head is the head followed by each other part behind a
    separator. *)
Lemma join_cons (sep head : string) (parts : list string) :
  join sep (head :: parts)
  = (head ++ join EmptyString (map (fun part => sep ++ part) parts))%string.
Proof.
  revert head. induction parts as [| part parts IH]; intros head.
  - simpl. now rewrite append_empty_r.
  - change (join sep (head :: part :: parts))
      with (head ++ sep ++ join sep (part :: parts))%string.
    rewrite IH. 
    destruct parts as [| part' parts].
    + simpl. now rewrite !append_empty_r.
    + change (join EmptyString (map (fun q => sep ++ q) (part :: part' :: parts)))%string
        with ((sep ++ part) ++ EmptyString
                ++ join EmptyString (map (fun q => sep ++ q) (part' :: parts)))%string.
      simpl (EmptyString ++ _)%string.
      now rewrite append_assoc.
Qed.

Lemma join_empty_app (l1 l2 : list string) :
  join EmptyString (l1 ++ l2) = (join EmptyString l1 ++ join EmptyString l2)%string.
Proof.
  induction l1 as [| a l1 IH]; [reflexivity |].
  change ((a :: l1) ++ l2)%list with (a :: (l1 ++ l2))%list.
  destruct l1 as [| b l1].
  - destruct l2 as [| c l2]; simpl; [now rewrite append_empty_r | reflexivity].
  - change (join EmptyString (a :: (b :: l1) ++ l2))
      with (a ++ EmptyString ++ join EmptyString ((b :: l1) ++ l2))%string.
    rewrite IH.
    change (join EmptyString (a :: b :: l1))
      with (a ++ EmptyString ++ join EmptyString (b :: l1))%string.
    simpl (EmptyString ++ _)%string. now rewrite append_assoc.
Qed.

(** A loop that pushes one item per element builds the mapped list. *)
Lemma fold_left_push {A B : Type} (f : A -> B) (l : list A) (init : list B) :
  fold_left (fun acc a => push acc (f a)) l init = (init ++ map f l)%list.
Proof.
  revert init. induction l as [| a l IH]; intros init; simpl.
  - now rewrite app_nil_r.
  - rewrite IH. unfold push. now rewrite <- app_assoc.
Qed.

(** A loop that appends one string per element appends their concatenation. *)
Lemma fold_left_append {A : Type} (g : A -> string) (l : list A) (init : string) :
  fold_left (fun acc a => (acc ++ g a)%string) l init
  = (init ++ join EmptyString (map g l))%string.
Proof.
  revert init. induction l as [| a l IH]; intros init.
  - simpl. now rewrite append_empty_r.
  - simpl fold_left. rewrite IH, append_assoc. f_equal.
    change (map g (a :: l)) with ([g a] ++ map g l)%list.
    now rewrite join_empty_app.
Qed.

(** ** The table encoder *)

Section TableProperties.

Context {host : Host}.

(** The two nested loops of [generateCSV] append the data rows. *)
Lemma rows_loop (datasets : list DataSet) (init : list (list jsvalue)) :
  fold_left
    (fun combinedLines dataset =>
       fold_left
         (fun combinedLines datum => push combinedLines (getCSVRow (label dataset) datum))
         (data dataset) combinedLines)
    datasets init
  = (init ++ dataRows datasets)%list.
Proof.
  revert init. induction datasets as [| dataset datasets IH]; intros init.
  - simpl. now rewrite app_nil_r.
  - simpl fold_left. rewrite IH, fold_left_push.
    unfold dataRows. simpl flat_map. now rewrite app_assoc.
Qed.

Lemma combinedLines_rows (datasets : list DataSet) (xAxisVal : PlotXAxisVal) :
  combinedLines datasets xAxisVal = headLine xAxisVal :: dataRows datasets.
Proof.
  unfold combinedLines. now rewrite rows_loop.
Qed.

Lemma length_dataRows (datasets : list DataSet) :
  List.length (dataRows datasets)
  = list_sum (map (fun dataset => List.length (data dataset)) datasets).
Proof.
  induction datasets as [| dataset datasets IH]; [reflexivity |].
  unfold dataRows in *. simpl.
  now rewrite length_app, length_map, IH.
Qed.

Lemma headLine_string (xAxisVal : PlotXAxisVal) :
  rowString (headLine xAxisVal)
  = (elementString (getCVSColName xAxisVal)
       ++ ",receive time,header.stamp,topic,value")%string.
Proof. reflexivity. Qed.

(** A key that neither the object literal nor [Object.prototype] has. *)
Lemma getCVSColName_absent (xAxisVal : PlotXAxisVal) :
  ~ In xAxisVal plotXAxisVals -> ~ In xAxisVal objectPrototypeKeys ->
  getCVSColName xAxisVal = VUndefined.
Proof.
  intros Hset Hproto. unfold getCVSColName.
  repeat match goal with
         | |- context [String.eqb xAxisVal ?k] =>
             destruct (String.eqb_spec xAxisVal k) as [-> | _];
             [exfalso; apply Hset; simpl; tauto |]
         end.
  destruct (existsb (String.eqb xAxisVal) objectPrototypeKeys) eqn:E; [| reflexivity].
  apply existsb_exists in E. destruct E as (k & Hin & Hk).
  apply String.eqb_eq in Hk. subst k. contradiction.
Qed.

(** C2, as amended: for each of the four axis kinds the header starts with
    the label of the fixed mapping ("elapsed time", "index", "x value",
    "x value") and goes on with the four fixed columns; [generateCSV]
    raises no error for any other value: when the value is not a member of
    [Object.prototype] either, the lookup gives [undefined] and the first
    column of the header is empty. *)
Theorem C2_header_row (datasets : list DataSet) (xAxisVal : PlotXAxisVal) :
  exists first rest : string,
    generateCSV datasets xAxisVal
    = Normal (first ++ ",receive time,header.stamp,topic,value" ++ rest)%string
    /\ rest = join EmptyString
                (map (fun row => newline ++ rowString row)%string (dataRows datasets))
    /\ (xAxisVal = "timestamp" -> first = "elapsed time")
    /\ (xAxisVal = "index" -> first = "index")
    /\ (xAxisVal = "custom" -> first = "x value")
    /\ (xAxisVal = "currentCustom" -> first = "x value")
    /\ (~ In xAxisVal plotXAxisVals -> ~ In xAxisVal objectPrototypeKeys ->
        first = EmptyString).
Proof.
  exists (elementString (getCVSColName xAxisVal)).
  eexists. split; [| split; [reflexivity |]].
  - unfold generateCSV. rewrite combinedLines_rows.
    change (map rowString (headLine xAxisVal :: dataRows datasets))
      with (rowString (headLine xAxisVal) :: map rowString (dataRows datasets)).
    rewrite join_cons, headLine_string, map_map, append_assoc. reflexivity.
  - repeat split; try (intros ->; reflexivity).
    intros Hset Hproto. now rewrite getCVSColName_absent.
Qed.

(** C7: with no dataset the table is the header alone, on one line, for
    each of the four axis kinds; with the one dataset of two points whose
    [x] are 0 and 10 and the axis kind [index], it is the header line
    "index,receive time,header.stamp,topic,value" and two rows that start
    with 0 and with 10. *)
Theorem C7_header_only_and_two_rows :
  Forall
    (fun xAxisVal =>
       exists header,
         generateCSV [] xAxisVal = Normal header
         /\ header = rowString (headLine xAxisVal)
         /\ index 0 newline header = None)
    plotXAxisVals
  /\ generateCSV [] "index" = Normal "index,receive time,header.stamp,topic,value"
  /\ forall (topic : option string) (v0 v1 : PlotValue) (t0 t1 : Time)
            (s0 s1 : option Time),
      let d0 := {| x := ofZ 0; y := ofZ 0; value := v0;
                   receiveTime := t0; headerStamp := s0 |} in
      let d1 := {| x := ofZ 10; y := ofZ 10; value := v1;
                   receiveTime := t1; headerStamp := s1 |} in
      let datasets := [ {| label := topic; data := [d0; d1] |} ] in
      let cells row := join "," (map elementString (tl row)) in
      combinedLines datasets "index"
      = [headLine "index"; getCSVRow topic d0; getCSVRow topic d1]
      /\ generateCSV datasets "index"
         = Normal ("index,receive time,header.stamp,topic,value" ++ newline
                     ++ "0," ++ cells (getCSVRow topic d0) ++ newline
                     ++ "10," ++ cells (getCSVRow topic d1))%string.
Proof.
  split; [| split].
  - repeat constructor; eexists; (split; [reflexivity | split; reflexivity]).
  - reflexivity.
  - intros. split; reflexivity.
Qed.

End TableProperties.

(** [C2_header_row] on [sampleHost], with no dataset and the axis kind
    [timestamp]. *)
Lemma C2_header_row_witness :
  exists first rest : string,
    @generateCSV sampleHost [] "timestamp"
    = Normal (first ++ ",receive time,header.stamp,topic,value" ++ rest)%string
    /\ first = "elapsed time".
Proof.
  destruct (@C2_header_row sampleHost [] "timestamp")
    as (first & rest & Hcsv & _ & Htimestamp & _).
  exists first, rest. split; [exact Hcsv | exact (Htimestamp eq_refl)].
Defined.

(** C2 as stated fails: a value outside the four axis kinds raises nothing. *)
Lemma C2_counterexample :
  ~ In "bogus" plotXAxisVals
  /\ @generateCSV sampleHost [] "bogus" = Normal ",receive time,header.stamp,topic,value"
  /\ @generateCSV sampleHost [] "bogus" <> Throw "ConfigurationError".
Proof.
  split; [| split].
  - simpl. intros [H | [H | [H | [H | []]]]]; discriminate H.
  - reflexivity.
  - discriminate.
Qed.

(** ** The vector renderer: shape of the document *)

(** A loop whose body pushes one item and returns builds the mapped list. *)
Lemma forEach_push {A B : Type} (items : list A) (body : list B -> A -> completion (list B))
    (f : A -> B) :
  (forall s a, body s a = Normal (push s (f a))) ->
  forall init, forEach items body init = Normal (init ++ map f items)%list.
Proof.
  intros Hbody. induction items as [| a items IH]; intros init; simpl.
  - now rewrite app_nil_r.
  - rewrite Hbody. simpl. rewrite IH. unfold push. now rewrite <- app_assoc.
Qed.

(** [toFixed] returns when the digit count is within [0..100]. *)
Lemma toFixed_returns (sd : number -> string) (a : number) (f : Z) :
  (0 <= f <= 100)%Z -> toFixed sd a f = Normal (returned (toFixed sd a f)).
Proof.
  intros Hf. unfold toFixed.
  destruct ((f <? 0)%Z || (100 <? f)%Z) eqn:E.
  - apply orb_true_iff in E. destruct E as [E | E]; apply Z.ltb_lt in E; lia.
  - destruct a as [s | s | | s m e]; try reflexivity.
    destruct (atLeast1e21 m e); reflexivity.
Qed.

Lemma bindC_Normal {A B : Type} (a : A) (k : A -> completion B) :
  bindC (Normal a) k = k a.
Proof. reflexivity. Qed.

Section DocumentShape.

Context {host : Host}.
Local Open Scope arith_scope.

(** The two tick loops throw nothing: [toFixed] is called with 1 and 2
    digits. *)
Lemma xTicks_returns (r : Range) : xTicks r = Normal (xTickList r).
Proof.
  unfold xTicks, xTickList.
  rewrite forEach_push
    with (f := fun i => xTick (xPos (lit i)) (tickLabel (xMin r) (xMax r) 1 i));
    [reflexivity |].
  intros s i. unfold tickLabel.
  rewrite (toFixed_returns shortestDecimal (tickValue (xMin r) (xMax r) (lit i)) 1)
    by lia.
  reflexivity.
Qed.

Lemma yTicks_returns (r : Range) : yTicks r = Normal (yTickList r).
Proof.
  unfold yTicks, yTickList.
  rewrite forEach_push
    with (f := fun i => yTick (yPos (lit i)) (tickLabel (yMin r) (yMax r) 2 i));
    [reflexivity |].
  intros s i. unfold tickLabel.
  rewrite (toFixed_returns shortestDecimal (tickValue (yMin r) (yMax r) (lit i)) 2)
    by lia.
  reflexivity.
Qed.

(** A call spreads an array within the limit and throws beyond it. *)
Lemma spread_returns (f : list number -> number) (first : number) (rest : list number) :
  (N.of_nat (List.length rest) <= spreadLimit)%N ->
  spread f first rest = Normal (f (first :: rest)).
Proof.
  intros H. unfold spread. now rewrite (proj2 (N.leb_le _ _) H).
Qed.

Lemma spread_throws (f : list number -> number) (first : number) (rest : list number) :
  (spreadLimit < N.of_nat (List.length rest))%N ->
  spread f first rest = Throw "RangeError".
Proof.
  intros H. unfold spread. now rewrite (proj2 (N.leb_gt _ _) H).
Qed.

(** The first loop, from any range: within the limit it folds [Math.min] and
    [Math.max] over the datasets. *)
Lemma range_loop (datasets : list DataSet) (r : Range) :
  withinSpreadLimit datasets ->
  forEach datasets extendRange r
  = Normal {| xMin := minOver (xLists datasets) (xMin r);
              xMax := maxOver (xLists datasets) (xMax r);
              yMin := minOver (yLists datasets) (yMin r);
              yMax := maxOver (yLists datasets) (yMax r) |}.
Proof.
  revert r. induction datasets as [| dataset datasets IH]; intros r Hall.
  - destruct r; reflexivity.
  - inversion Hall as [| d ds Hd Hds]; subst. cbn [forEach].
    unfold extendRange. cbv zeta.
    rewrite !spread_returns, !bindC_Normal by (now rewrite length_map).
    rewrite (IH _ Hds). reflexivity.
Qed.

Lemma dataRange_returns (datasets : list DataSet) :
  withinSpreadLimit datasets -> dataRange datasets = Normal (boundingBox datasets).
Proof. intros Hall. unfold dataRange. now rewrite range_loop. Qed.

(** The first dataset beyond the limit ends the loop with a [RangeError]. *)
Lemma range_loop_throws (datasets : list DataSet) (r : Range) :
  ~ withinSpreadLimit datasets -> forEach datasets extendRange r = Throw "RangeError".
Proof.
  revert r. induction datasets as [| dataset datasets IH]; intros r Hnot.
  - exfalso. apply Hnot. constructor.
  - cbn [forEach]. unfold extendRange. cbv zeta.
    destruct (N.le_gt_cases (N.of_nat (List.length (data dataset))) spreadLimit)
      as [Hd | Hd].
    + rewrite !spread_returns, !bindC_Normal by (now rewrite length_map).
      apply IH. intros Hds. apply Hnot. now constructor.
    + rewrite spread_throws by (now rewrite length_map). reflexivity.
Qed.

Lemma dataRange_throws (datasets : list DataSet) :
  ~ withinSpreadLimit datasets -> dataRange datasets = Throw "RangeError".
Proof. apply range_loop_throws. Qed.

(** Within the limit [generateSVG] throws nothing: it returns the frame, the
    [path] elements and the closing tag. *)
Lemma generateSVG_returns (datasets : list DataSet) :
  withinSpreadLimit datasets ->
  generateSVG datasets
  = Normal (frame (boundingBox datasets)
              ++ join EmptyString (pathElements (boundingBox datasets) datasets)
              ++ svgClose)%string.
Proof.
  intros Hall. unfold generateSVG. cbv zeta.
  rewrite (dataRange_returns datasets Hall), bindC_Normal.
  rewrite xTicks_returns, bindC_Normal.
  rewrite yTicks_returns, bindC_Normal.
  unfold appendPaths. rewrite fold_left_append.
  unfold frame, pathElements. rewrite !append_assoc. reflexivity.
Qed.

(** Beyond the limit it throws before it writes anything. *)
Lemma generateSVG_throws (datasets : list DataSet) :
  ~ withinSpreadLimit datasets -> generateSVG datasets = Throw "RangeError".
Proof.
  intros Hnot. unfold generateSVG. cbv zeta.
  now rewrite (dataRange_throws datasets Hnot).
Qed.

Lemma withinSpreadLimit_dec (datasets : list DataSet) :
  {withinSpreadLimit datasets} + {~ withinSpreadLimit datasets}.
Proof.
  apply Forall_dec. intros dataset.
  destruct (N.leb (N.of_nat (List.length (data dataset))) spreadLimit) eqn:E.
  - left. now apply N.leb_le.
  - right. intros H. apply N.leb_le in H. congruence.
Qed.

(** The loop ends with a range only within the limit, and the range is the
    bounding box. *)
Lemma dataRange_Normal (datasets : list DataSet) (r : Range) :
  dataRange datasets = Normal r ->
  withinSpreadLimit datasets /\ r = boundingBox datasets.
Proof.
  intros Hr. destruct (withinSpreadLimit_dec datasets) as [Hall | Hnot].
  - rewrite (dataRange_returns datasets Hall) in Hr. injection Hr as <-. now split.
  - rewrite (dataRange_throws datasets Hnot) in Hr. discriminate Hr.
Qed.

(** A dataset of a few points is within the limit of every host. *)
Lemma small_within_limit (n : nat) :
  (N.of_nat n <= 10000)%N -> (N.of_nat n <= spreadLimit)%N.
Proof. intros H. pose proof spreadLimit_min. lia. Qed.

End DocumentShape.

(** ** The ticks, the paths and the export triggers *)

Section RendererProperties.

Context {host : Host}.
Local Open Scope arith_scope.

Lemma countTo_0_10 : countTo 0 10 = tickIndices.
Proof. reflexivity. Qed.

Lemma xPos_exact :
  Forall (fun i => xPos (lit i) = ofZ (40 + 42 * i)) tickIndices.
Proof. repeat constructor. Qed.

Lemma yPos_exact :
  Forall (fun i => yPos (lit i) = ofZ (460 - 42 * i)) tickIndices.
Proof. repeat constructor. Qed.

Lemma tickLabel_returned (lo hi : number) (digits i : Z) :
  (0 <= digits <= 100)%Z ->
  toFixed shortestDecimal (tickValue lo hi (lit i)) digits
  = Normal (tickLabel lo hi digits i).
Proof. intros H. unfold tickLabel. now apply toFixed_returns. Qed.

(** The ticks as they read: the positions print as the integers
    [40 + 42 * i] and [460 - 42 * i], and the other coordinates as 460, 465,
    475, 35, 40 and 30. *)
Lemma xTick_reads :
  Forall (fun i => forall label : string,
              xTick (xPos (lit i)) label = xTickMarkup (decimalOfZ (40 + 42 * i)) label)
         tickIndices.
Proof.
  repeat (apply Forall_cons; [intros label; vm_compute; reflexivity |]).
  apply Forall_nil.
Qed.

Lemma yTick_reads :
  Forall (fun i => forall label : string,
              yTick (yPos (lit i)) label = yTickMarkup (decimalOfZ (460 - 42 * i)) label)
         tickIndices.
Proof.
  repeat (apply Forall_cons; [intros label; vm_compute; reflexivity |]).
  apply Forall_nil.
Qed.

Lemma frame_reads (r : Range) :
  frame r
  = (svgOpen
       ++ xAxis
       ++ join EmptyString
            (map (fun i => xTickMarkup (decimalOfZ (40 + 42 * i))
                             (tickLabel (xMin r) (xMax r) 1 i)) tickIndices)
       ++ yAxis
       ++ join EmptyString
            (map (fun i => yTickMarkup (decimalOfZ (460 - 42 * i))
                             (tickLabel (yMin r) (yMax r) 2 i)) tickIndices))%string.
Proof.
  unfold frame, xTickList, yTickList. rewrite countTo_0_10.
  rewrite (map_ext_in (fun i => xTick (xPos (lit i)) (tickLabel (xMin r) (xMax r) 1 i))
             (fun i => xTickMarkup (decimalOfZ (40 + 42 * i))
                         (tickLabel (xMin r) (xMax r) 1 i)))
    by (intros i Hi; apply (proj1 (Forall_forall _ _) xTick_reads i Hi)).
  rewrite (map_ext_in (fun i => yTick (yPos (lit i)) (tickLabel (yMin r) (yMax r) 2 i))
             (fun i => yTickMarkup (decimalOfZ (460 - 42 * i))
                         (tickLabel (yMin r) (yMax r) 2 i)))
    by (intros i Hi; apply (proj1 (Forall_forall _ _) yTick_reads i Hi)).
  reflexivity.
Qed.

(** The empty dataset does not count for the limit. *)
Lemma withinSpreadLimit_insert_empty (before after : list DataSet) (topic : option string) :
  withinSpreadLimit (before ++ {| label := topic; data := [] |} :: after)
  <-> withinSpreadLimit (before ++ after).
Proof.
  unfold withinSpreadLimit. rewrite !Forall_app, Forall_cons_iff. cbn [data List.length].
  split; [tauto |]. intros [Hb Ha]. repeat split; try assumption. lia.
Qed.

(** C6: when no dataset is beyond the spread limit, the document holds, after
    each axis, eleven ticks, for the indices 0 to 10.  The x tick of index
    [i] is a line from [(p, 460)] to [(p, 465)] and a text at [(p, 475)]
    where [p] is [margin + i * ((svgWidth - margin * 2) / 10)], which prints
    as [40 + 42 * i]; the text is [xMin + (xMax - xMin) * (i / 10)] printed
    by [toFixed(1)].  The y tick of index [i] is a line from [(35, p)] to
    [(40, p)] and a text at [(30, p)] where [p] prints as [460 - 42 * i]; the
    text is [yMin + (yMax - yMin) * (i / 10)] printed by [toFixed(2)].  With
    a dataset beyond the limit there is no document: [generateSVG] throws a
    [RangeError]. *)
Theorem C6_axis_ticks (datasets : list DataSet) :
  let xLabel (r : Range) (i : Z) :=
    returned (toFixed shortestDecimal
                (xMin r + (xMax r - xMin r) * (lit i / lit 10)) 1) in
  let yLabel (r : Range) (i : Z) :=
    returned (toFixed shortestDecimal
                (yMin r + (yMax r - yMin r) * (lit i / lit 10)) 2) in
  (withinSpreadLimit datasets ->
   exists r : Range,
     dataRange datasets = Normal r
     /\ generateSVG datasets
        = Normal (svgOpen
                    ++ xAxis
                    ++ join EmptyString
                         (map (fun i => xTickMarkup (decimalOfZ (40 + 42 * i)) (xLabel r i))
                              tickIndices)
                    ++ yAxis
                    ++ join EmptyString
                         (map (fun i => yTickMarkup (decimalOfZ (460 - 42 * i)) (yLabel r i))
                              tickIndices)
                    ++ join EmptyString (pathElements r datasets)
                    ++ svgClose)%string
     /\ Forall
          (fun i =>
             str (margin + lit i * ((svgWidth - margin * lit 2) / lit 10))
             = decimalOfZ (40 + 42 * i)
             /\ toFixed shortestDecimal
                  (xMin r + (xMax r - xMin r) * (lit i / lit 10)) 1
                = Normal (xLabel r i))
          tickIndices
     /\ Forall
          (fun i =>
             str (svgHeight - margin - lit i * ((svgHeight - margin * lit 2) / lit 10))
             = decimalOfZ (460 - 42 * i)
             /\ toFixed shortestDecimal
                  (yMin r + (yMax r - yMin r) * (lit i / lit 10)) 2
                = Normal (yLabel r i))
          tickIndices)
  /\ tickIndices = [0; 1; 2; 3; 4; 5; 6; 7; 8; 9; 10]%Z
  /\ (~ withinSpreadLimit datasets -> generateSVG datasets = Throw "RangeError").
Proof.
  intros xLabel yLabel. split; [| split; [reflexivity | apply generateSVG_throws]].
  intros Hall. exists (boundingBox datasets). set (r := boundingBox datasets).
  split; [now apply dataRange_returns |]. split; [| split].
  - rewrite (generateSVG_returns datasets Hall). fold r. rewrite frame_reads.
    now rewrite !append_assoc.
  - apply Forall_forall. intros i Hi. split.
    + revert i Hi. apply Forall_forall. repeat constructor.
    + apply (tickLabel_returned (xMin r) (xMax r) 1 i). lia.
  - apply Forall_forall. intros i Hi. split.
    + revert i Hi. apply Forall_forall. repeat constructor.
    + apply (tickLabel_returned (yMin r) (yMax r) 2 i). lia.
Qed.

(** C9: [downloadCSV] calls the sink once, with a list of one item: a blob
    whose only part is the text of [generateCSV], typed
    "text/csv;charset=utf-8;", under the file name "plot_data.csv", and
    returns [undefined].  So does [downloadSVG], with the text of
    [generateSVG], the type "image/svg+xml;charset=utf-8;" and the file name
    "plot_data.svg", when no dataset is beyond the spread limit; with a
    dataset beyond it, [generateSVG] throws a [RangeError], [downloadSVG]
    throws it too and the sink is not called. *)
Theorem C9_export_triggers (datasets : list DataSet) (xAxisVal : PlotXAxisVal)
    (calls : SinkCalls) :
  (exists csvData : string,
      generateCSV datasets xAxisVal = Normal csvData
      /\ downloadCSV datasets xAxisVal calls
         = (Normal tt,
            (calls ++ [[ {| blob := {| blobParts := [csvData];
                                       blobType := "text/csv;charset=utf-8;" |};
                            fileName := "plot_data.csv" |} ]])%list))
  /\ (withinSpreadLimit datasets ->
      exists svgData : string,
        generateSVG datasets = Normal svgData
        /\ downloadSVG datasets calls
           = (Normal tt,
              (calls ++ [[ {| blob := {| blobParts := [svgData];
                                         blobType := "image/svg+xml;charset=utf-8;" |};
                              fileName := "plot_data.svg" |} ]])%list))
  /\ (~ withinSpreadLimit datasets ->
      generateSVG datasets = Throw "RangeError"
      /\ downloadSVG datasets calls = (Throw "RangeError", calls)).
Proof.
  split; [| split].
  - eexists. split; reflexivity.
  - intros Hall. eexists. split; [now apply generateSVG_returns |].
    unfold downloadSVG, bindE, noCall. now rewrite (generateSVG_returns datasets Hall).
  - intros Hnot. split; [now apply generateSVG_throws |].
    unfold downloadSVG, bindE, noCall. now rewrite (generateSVG_throws datasets Hnot).
Qed.

Lemma pathElements_app (r : Range) (l1 l2 : list DataSet) :
  pathElements r (l1 ++ l2) = (pathElements r l1 ++ pathElements r l2)%list.
Proof. apply map_app. Qed.

(** C10: a dataset without points has [resampleFactor] 0, which is what
    [Math.ceil(0 / 1000)] gives; [index % 0] is [NaN], which is not [=== 0],
    so no index is on the stride and no point is kept.  The dataset does not
    count for the spread limit: when the other datasets are within it,
    [generateSVG] throws nothing and still writes the [path] element of that
    dataset, with the path data "M", at its place among the [path] elements,
    one per dataset; when one of the other datasets is beyond the limit,
    [generateSVG] throws a [RangeError]. *)
Theorem C10_empty_dataset_path (before after : list DataSet) (topic : option string) :
  let empty := {| label := topic; data := [] |} in
  let datasets := (before ++ empty :: after)%list in
  resampleFactor (List.length (data empty)) = 0%nat
  /\ Math_ceil (div (ofNat (List.length (data empty))) (ofNat maxPoints)) = ofZ 0
  /\ (forall index, strictEq (rem (ofNat index) (ofZ 0)) (ofZ 0) = false)
  /\ (forall index, onStride 0 index = false)
  /\ resampledData empty = []
  /\ pathElement EmptyString
     = tpl "
      <path
        style='opacity:0.712203;fill:none;stroke:#000000;stroke-width:2px;stop-color:#000000'
        d='M' />"
  /\ (withinSpreadLimit (before ++ after) ->
      exists r : Range,
        dataRange datasets = Normal r
        /\ generateSVG datasets
           = Normal (frame r
                       ++ join EmptyString (pathElements r before)
                       ++ pathElement EmptyString
                       ++ join EmptyString (pathElements r after)
                       ++ svgClose)%string
        /\ List.length (pathElements r datasets) = List.length datasets)
  /\ (~ withinSpreadLimit (before ++ after) -> generateSVG datasets = Throw "RangeError").
Proof.
  intros empty datasets.
  split; [reflexivity | split; [reflexivity | split]].
  { intros index. destruct (ofNat index); reflexivity. }
  split; [reflexivity | split; [reflexivity | split; [reflexivity |]]].
  split.
  - intros Hall.
    apply (withinSpreadLimit_insert_empty before after topic) in Hall.
    fold empty in Hall. fold datasets in Hall.
    exists (boundingBox datasets). set (r := boundingBox datasets).
    split; [now apply dataRange_returns | split; [| apply length_map]].
    rewrite (generateSVG_returns datasets Hall). fold r. unfold datasets.
    rewrite pathElements_app, join_empty_app.
    change (pathElements r (empty :: after))
      with ([pathElement EmptyString] ++ pathElements r after)%list.
    rewrite join_empty_app.
    change (join EmptyString [pathElement EmptyString]) with (pathElement EmptyString).
    now rewrite !append_assoc.
  - intros Hnot. apply generateSVG_throws. intros Hall. apply Hnot.
    now apply (withinSpreadLimit_insert_empty before after topic).
Qed.

End RendererProperties.

(** The datasets of [longDataset] are beyond the limit of [sampleHost], and
    those of a segment are within it. *)
Lemma longDataset_beyond : ~ withinSpreadLimit longDataset.
Proof.
  intros H. apply Forall_inv in H. unfold longDataset in H. cbn [data] in H.
  rewrite repeat_length, N2Nat.id in H. apply H. reflexivity.
Qed.

Lemma segment_within (a b : Z) : withinSpreadLimit (segment a b).
Proof. repeat constructor. vm_compute. discriminate. Qed.

(** [C6_axis_ticks] on the segment from [(0, 0)] to [(10, 10)], whose last x
    tick is labelled "10.0", and on [longDataset]. *)
Lemma C6_axis_ticks_witness :
  (exists r : Range,
      dataRange (segment 10 10) = Normal r
      /\ toFixed (@shortestDecimal sampleHost)
           (add (xMin r) (mul (sub (xMax r) (xMin r)) (div (ofZ 10) (ofZ 10)))) 1
         = Normal "10.0")
  /\ generateSVG longDataset = Throw "RangeError".
Proof.
  destruct (@C6_axis_ticks sampleHost (segment 10 10)) as (Hticks & _ & _).
  destruct (Hticks (segment_within 10 10)) as (r & Hr & _ & Hx & _).
  destruct (@C6_axis_ticks sampleHost longDataset) as (_ & _ & Hthrow).
  split; [| exact (Hthrow longDataset_beyond)].
  exists r. split; [exact Hr |].
  pose proof (proj1 (Forall_forall _ _) Hx 10%Z ltac:(cbn; tauto)) as [_ Hlabel].
  etransitivity; [exact Hlabel |].
  rewrite (dataRange_returns (segment 10 10) (segment_within 10 10)) in Hr.
  injection Hr as <-. vm_compute. reflexivity.
Defined.

(** [C9_export_triggers] on the segment from [(0, 0)] to [(10, 10)], with one
    call of the sink, and on [longDataset], with none. *)
Lemma C9_export_triggers_witness :
  (exists svgData : string,
      downloadSVG (segment 10 10) []
      = (Normal tt,
         [[ {| blob := {| blobParts := [svgData];
                          blobType := "image/svg+xml;charset=utf-8;" |};
               fileName := "plot_data.svg" |} ]]))
  /\ downloadSVG longDataset [] = (Throw "RangeError", []).
Proof.
  destruct (@C9_export_triggers sampleHost (segment 10 10) "index" [])
    as (_ & Hsvg & _).
  destruct (Hsvg (segment_within 10 10)) as (svgData & _ & Hcall).
  destruct (@C9_export_triggers sampleHost longDataset "index" [])
    as (_ & _ & Hthrow).
  split; [exists svgData; exact Hcall | exact (proj2 (Hthrow longDataset_beyond))].
Defined.

(** [C10_empty_dataset_path] on an empty dataset before the segment from
    [(0, 0)] to [(10, 10)], and before [longDataset]. *)
Lemma C10_empty_dataset_path_witness :
  (exists document : string,
      generateSVG ({| label := None; data := [] |} :: segment 10 10) = Normal document)
  /\ generateSVG ({| label := None; data := [] |} :: longDataset) = Throw "RangeError".
Proof.
  destruct (@C10_empty_dataset_path sampleHost [] (segment 10 10) None)
    as (_ & _ & _ & _ & _ & _ & Hreturns & _).
  destruct (Hreturns (segment_within 10 10)) as (r & _ & Hdoc & _).
  destruct (@C10_empty_dataset_path sampleHost [] longDataset None)
    as (_ & _ & _ & _ & _ & _ & _ & Hthrow).
  split; [eexists; exact Hdoc | exact (Hthrow longDataset_beyond)].
Defined.

(** ** Downsampling *)

(** The binary64 computation [Math.ceil(dataPoints / maxPoints)] gives the
    integer [resampleFactor], for every length up to 4000. *)
Lemma resampleFactor_binary64 :
  forallb
    (fun dataPoints =>
       sameNumber (Math_ceil (div (ofNat dataPoints) (ofNat maxPoints)))
                  (ofNat (resampleFactor dataPoints)))
    (seq 0 4001)
  = true.
Proof. vm_compute. reflexivity. Qed.

(** The binary64 test [index % resampleFactor === 0] gives [onStride], for
    every index of an array of 0, 1, 999, 1000, 1001 or 2500 points. *)
Lemma onStride_binary64 :
  forallb
    (fun dataPoints =>
       let factor := Math_ceil (div (ofNat dataPoints) (ofNat maxPoints)) in
       forallb
         (fun index =>
            Bool.eqb (strictEq (rem (ofNat index) factor) (ofZ 0))
                     (onStride (resampleFactor dataPoints) index))
         (seq 0 dataPoints))
    [0; 1; 999; 1000; 1001; 2500]%nat
  = true.
Proof. vm_compute. reflexivity. Qed.

(** A filter that looks at the index only keeps the elements at the indices
    the test accepts. *)
Lemma filterFrom_indices {A : Type} (p : nat -> bool) (l : list A) (i : nat) :
  map Some (filterFrom (fun _ k => p k) i l)
  = map (fun k => nth_error l (k - i)) (filter p (seq i (List.length l))).
Proof.
  revert i. induction l as [| item rest IH]; intros i; [reflexivity |].
  assert (Hrest : map (fun k => nth_error (item :: rest) (k - i))
                      (filter p (seq (S i) (List.length rest)))
                  = map (fun k => nth_error rest (k - S i))
                        (filter p (seq (S i) (List.length rest)))).
  { apply map_ext_in. intros k Hk. apply filter_In in Hk. destruct Hk as [Hk _].
    apply in_seq in Hk. replace (k - i)%nat with (S (k - S i)) by lia. reflexivity. }
  simpl. destruct (p i); simpl; rewrite IH, Hrest; [rewrite Nat.sub_diag |]; reflexivity.
Qed.

(** The ceiling of a quotient. *)
Lemma ceiling_quotient (n r : nat) :
  (0 < r)%nat ->
  ((n + r - 1) / r = n / r + (if Nat.eqb (n mod r) 0 then 0 else 1))%nat.
Proof.
  intros Hr. pose proof (Nat.div_mod_eq n r) as Hn.
  pose proof (Nat.mod_upper_bound n r ltac:(lia)) as Hm.
  destruct (Nat.eqb_spec (n mod r) 0) as [E | E].
  - symmetry. apply (Nat.div_unique _ _ _ (r - 1)); [lia |]. nia.
  - symmetry. apply (Nat.div_unique _ _ _ (n mod r - 1)); [lia |]. nia.
Qed.

(** The multiples of [r] below [n]. *)
Lemma stride_indices (r n : nat) :
  (0 < r)%nat ->
  filter (fun k => Nat.eqb (k mod r) 0) (seq 0 n)
  = map (fun j => (j * r)%nat) (seq 0 ((n + r - 1) / r)).
Proof.
  intros Hr. induction n as [| n IH].
  - rewrite (Nat.div_small (0 + r - 1) r) by lia. reflexivity.
  - rewrite seq_S, filter_app, IH. change (0 + n)%nat with n. cbn [filter].
    pose proof (Nat.div_mod_eq n r) as Hn.
    pose proof (Nat.mod_upper_bound n r ltac:(lia)) as Hm.
    assert (HS : ((S n + r - 1) / r = S (n / r))%nat).
    { symmetry. apply (Nat.div_unique _ _ _ (n mod r)); [lia | nia]. }
    rewrite HS, (ceiling_quotient n r Hr).
    destruct (Nat.eqb_spec (n mod r) 0) as [E | E].
    + rewrite Nat.add_0_r, seq_S, map_app. change (0 + n / r)%nat with (n / r)%nat.
      cbn [map]. do 2 f_equal. nia.
    + rewrite app_nil_r, Nat.add_1_r. reflexivity.
Qed.

(** The factor is positive as soon as there is a point, and it is the ceiling
    of [dataPoints / 1000]. *)
Lemma resampleFactor_ceiling (dataPoints : nat) :
  (0 < dataPoints)%nat ->
  (0 < resampleFactor dataPoints
   /\ 1000 * (resampleFactor dataPoints - 1) < dataPoints
      <= 1000 * resampleFactor dataPoints)%nat.
Proof.
  intros Hn. unfold resampleFactor, maxPoints.
  rewrite (ceiling_quotient dataPoints 1000) by lia.
  pose proof (Nat.div_mod_eq dataPoints 1000) as Hd.
  pose proof (Nat.mod_upper_bound dataPoints 1000 ltac:(lia)) as Hm.
  destruct (Nat.eqb_spec (dataPoints mod 1000) 0) as [E | E]; lia.
Qed.

Section DownsamplingProperties.

Context {host : Host}.


End DownsamplingProperties.


(** ** The coordinate mapping *)

(** *** Binary64 facts *)

Lemma sub_self (a : number) : isFinite a = true -> sub a a = S754_zero false.
Proof.
  destruct a as [s | s | | s m e]; intros H; try discriminate H.
  - destruct s; reflexivity.
  - unfold sub, SFsub. rewrite Z.sub_diag. reflexivity.
Qed.

Lemma mul_zero_finite (s : bool) (b : number) :
  isFinite b = true -> exists s', mul (S754_zero s) b = S754_zero s'.
Proof.
  destruct b as [t | t | | t m e]; intros H; try discriminate H; eexists; reflexivity.
Qed.

Lemma add_zero_r (a : number) (s : bool) :
  isFinite a = true -> isNegZero a = false -> add a (S754_zero s) = a.
Proof.
  destruct a as [t | t | | t m e]; intros H Hz; try discriminate H.
  - destruct t; [discriminate Hz |]. destruct s; reflexivity.
  - reflexivity.
Qed.

Lemma sub_zero_r (a : number) (s : bool) :
  isFinite a = true -> isNegZero a = false -> sub a (S754_zero s) = a.
Proof.
  destruct a as [t | t | | t m e]; intros H Hz; try discriminate H.
  - destruct t; [discriminate Hz |]. destruct s; reflexivity.
  - reflexivity.
Qed.

Lemma lt_Infinity_l (b : number) : lt Infinity b = false.
Proof. destruct b as [s | s | | s m e]; try reflexivity; destruct s; reflexivity. Qed.

(** A point at the lower bound of the range is drawn at the margin, whatever
    the finite scale. *)
Lemma pathX_lower (lo scale : number) :
  isFinite lo = true -> isFinite scale = true -> pathX lo scale lo = ofZ 40.
Proof.
  intros Hlo Hscale. unfold pathX. cbn [minus times plus binary64].
  rewrite (sub_self lo Hlo).
  destruct (mul_zero_finite false scale Hscale) as [s' ->].
  now apply add_zero_r.
Qed.

Lemma pathY_lower (lo scale : number) :
  isFinite lo = true -> isFinite scale = true -> pathY lo scale lo = ofZ 460.
Proof.
  intros Hlo Hscale. unfold pathY. cbn [minus times plus binary64].
  rewrite (sub_self lo Hlo).
  destruct (mul_zero_finite false scale Hscale) as [s' ->].
  now apply sub_zero_r.
Qed.

Lemma Math_min_from_finite (args : list number) (lowest : number) :
  finiteOrInfinity lowest -> Forall finiteOrInfinity args ->
  finiteOrInfinity (Math_min_from lowest args).
Proof.
  revert lowest. induction args as [| n rest IH]; intros lowest Hlow Hargs; [exact Hlow |].
  inversion Hargs as [| n' rest' Hn Hrest]; subst. simpl.
  assert (HNaN : isNaN n = false).
  { destruct Hn as [Hn | ->]; [destruct n; try discriminate Hn |]; reflexivity. }
  rewrite HNaN.
  destruct (isNegZero n && isPosZero lowest); [now apply IH |].
  destruct (lt n lowest); now apply IH.
Qed.

Lemma Math_min_finite (args : list number) :
  Forall finiteOrInfinity args -> finiteOrInfinity (Math_min args).
Proof. apply Math_min_from_finite. now right. Qed.

(** ** Rounding to the nearest binary64 number *)

Section Rounding.

Local Open Scope Z_scope.


(** Powers of two with an exponent that is not a numeral are opaque to
    linear arithmetic. *)
Ltac hide_powers :=
  repeat match goal with
         | |- context [Z.pow ?b ?e] =>
             let v := fresh "power" in set (v := Z.pow b e) in *; clearbody v
         | H : context [Z.pow ?b ?e] |- _ =>
             let v := fresh "power" in set (v := Z.pow b e) in *; clearbody v
         end.

Lemma digits2_pos_bounds (p : positive) :
  2 ^ (Zpos (digits2_pos p) - 1) <= Zpos p < 2 ^ Zpos (digits2_pos p).
Proof.
  induction p as [p IH | p IH |]; cbn [digits2_pos].
  - rewrite Pos2Z.inj_succ, (Pos2Z.inj_xI p).
    replace (Z.succ (Zpos (digits2_pos p)) - 1) with (Z.succ (Zpos (digits2_pos p) - 1))
      by lia.
    rewrite !Z.pow_succ_r by lia. hide_powers. lia.
  - rewrite Pos2Z.inj_succ, (Pos2Z.inj_xO p).
    replace (Z.succ (Zpos (digits2_pos p)) - 1) with (Z.succ (Zpos (digits2_pos p) - 1))
      by lia.
    rewrite !Z.pow_succ_r by lia. hide_powers. lia.
  - cbn. lia.
Qed.

Lemma Zdigits2_unique (m d : Z) :
  2 ^ (d - 1) <= m < 2 ^ d -> 0 < d -> Zdigits2 m = d.
Proof.
  intros [Hlo Hhi] Hd.
  assert (Hm : 0 < m) by (pose proof (Z.pow_pos_nonneg 2 (d - 1)); lia).
  destruct m as [| p | p]; try lia. cbn [Zdigits2].
  pose proof (digits2_pos_bounds p) as [Plo Phi].
  set (d' := Zpos (digits2_pos p)) in *.
  assert (d' - 1 < d) by (apply (Z.pow_lt_mono_r_iff 2); lia).
  assert (d - 1 < d') by (apply (Z.pow_lt_mono_r_iff 2); lia).
  lia.
Qed.

Lemma Zdigits2_bounds (m : Z) :
  0 < m -> 2 ^ (Zdigits2 m - 1) <= m < 2 ^ Zdigits2 m.
Proof.
  intros Hm. destruct m as [| p | p]; try lia. apply digits2_pos_bounds.
Qed.

Lemma shr_1_located (N D : Z) (mrs : shr_record) :
  located N D mrs -> located N (2 * D) (shr_1 mrs).
Proof.
  destruct mrs as [m r s]. unfold located. cbn [shr_m shr_r shr_s].
  intros (HD & Hm & HR & Hloc).
  destruct m as [| [p | p |] | p]; try lia; cbn [shr_1 shr_m shr_r shr_s];
    destruct r, s; cbn [orb]; repeat split; try lia.
Qed.

Lemma iter_shr_1_located (p : positive) (N D : Z) (mrs : shr_record) :
  located N D mrs -> located N (2 ^ Zpos p * D) (iter_pos shr_1 p mrs).
Proof.
  revert D mrs. induction p as [p IH | p IH |]; intros D mrs H; cbn [iter_pos].
  - replace (2 ^ Zpos p~1 * D) with (2 ^ Zpos p * (2 ^ Zpos p * (2 * D))).
    + apply IH, IH. now apply shr_1_located.
    + rewrite (Pos2Z.inj_xI p).
      replace (2 * Zpos p + 1) with (Zpos p + Zpos p + 1) by lia.
      rewrite !Z.pow_add_r by lia. change (2 ^ 1) with 2. ring.
  - replace (2 ^ Zpos p~0 * D) with (2 ^ Zpos p * (2 ^ Zpos p * D)).
    + now apply IH, IH.
    + rewrite (Pos2Z.inj_xO p).
      replace (2 * Zpos p) with (Zpos p + Zpos p) by lia.
      rewrite !Z.pow_add_r by lia. ring.
  - change (2 ^ 1) with 2. now apply shr_1_located.
Qed.

Lemma fexp_normal (k : Z) : -1074 <= k - 53 -> fexp prec emax k = k - 53.
Proof. intros H. unfold fexp, emin, prec, emax. lia. Qed.

Lemma shr_located (N D : Z) (mrs : shr_record) (e n : Z) :
  0 <= n -> located N D mrs ->
  located N (2 ^ n * D) (fst (shr mrs e n)) /\ snd (shr mrs e n) = e + n.
Proof.
  intros Hn H. destruct n as [| p | p]; try lia; cbn [shr fst snd].
  - split; [| lia]. change (2 ^ 0) with 1. now rewrite Z.mul_1_l.
  - split; [| reflexivity]. now apply iter_shr_1_located.
Qed.

Lemma round_nearest_even_located (N D : Z) (mrs : shr_record) :
  located N D mrs ->
  let M := round_nearest_even (shr_m mrs) (loc_of_shr_record mrs) in
  shr_m mrs <= M <= shr_m mrs + 1 /\ 2 * Z.abs (M * D - N) <= D.
Proof.
  destruct mrs as [m r s]. unfold located. cbn [shr_m shr_r shr_s].
  intros (HD & Hm & HR & Hloc).
  destruct r, s; cbn [loc_of_shr_record round_nearest_even];
    try destruct (Z.even m); split; lia.
Qed.

Lemma binary_round_aux_normal (sx : bool) (mx ex : Z) (lx : location) (N D : Z) :
  0 < mx -> 0 <= Zdigits2 mx - 53 -> -1074 <= ex + (Zdigits2 mx - 53) ->
  located N D (shr_record_of_loc mx lx) ->
  exists M : Z,
    2 ^ 52 <= M <= 2 ^ 53
    /\ 2 * Z.abs (M * (2 ^ (Zdigits2 mx - 53) * D) - N) <= 2 ^ (Zdigits2 mx - 53) * D
    /\ binary_round_aux prec emax sx mx ex lx = rounded sx M (ex + (Zdigits2 mx - 53)).
Proof.
  intros Hmx Hn He Hloc.
  set (n := Zdigits2 mx - 53) in *.
  pose proof (Zdigits2_bounds mx Hmx) as Hdigits.
  assert (Hinitial : mx * D <= N < (mx + 1) * D /\ 0 < D).
  { destruct Hloc as (HD & _ & HR & _).
    replace (shr_m (shr_record_of_loc mx lx)) with mx in HR
      by (destruct lx as [| []]; reflexivity).
    lia. }
  unfold binary_round_aux, shr_fexp.
  rewrite (fexp_normal (Zdigits2 mx + ex)) by lia.
  replace (Zdigits2 mx + ex - 53 - ex) with n by lia.
  destruct (shr_located N D (shr_record_of_loc mx lx) ex n Hn Hloc) as [Hshift He1].
  destruct (shr (shr_record_of_loc mx lx) ex n) as [mrs e1]. cbn [fst snd] in Hshift, He1.
  subst e1.
  pose proof (round_nearest_even_located N (2 ^ n * D) mrs Hshift) as [HM Hnear].
  cbv zeta in HM, Hnear.
  set (M := round_nearest_even (shr_m mrs) (loc_of_shr_record mrs)) in *.
  assert (Hm1 : 2 ^ 52 <= shr_m mrs < 2 ^ 53).
  { destruct Hshift as (HD' & Hm & HR & _).
    assert (Hpow : 2 ^ Zdigits2 mx = 2 ^ 53 * 2 ^ n /\ 2 ^ (Zdigits2 mx - 1) = 2 ^ 52 * 2 ^ n).
    { split.
      - replace (Zdigits2 mx) with (53 + n) by lia. now rewrite Z.pow_add_r by lia.
      - replace (Zdigits2 mx - 1) with (52 + n) by lia. now rewrite Z.pow_add_r by lia. }
    destruct Hpow as [Hp1 Hp2]. rewrite Hp1, Hp2 in Hdigits.
    assert (Hn2 : 0 < 2 ^ n) by (apply Z.pow_pos_nonneg; lia).
    change (2 ^ 52) with 4503599627370496 in *.
    change (2 ^ 53) with 9007199254740992 in *.
    set (A := 2 ^ n) in *. clearbody A.
    split; nia. }
  exists M. split; [lia | split; [exact Hnear |]].
  unfold rounded. destruct (Z.ltb_spec M (2 ^ 53)) as [Hlt | Hge].
  - assert (Hd : Zdigits2 M = 53) by (apply Zdigits2_unique; [change (53 - 1) with 52 |]; lia).
    rewrite Hd, (fexp_normal (53 + (ex + n))) by lia.
    replace (53 + (ex + n) - 53 - (ex + n)) with 0 by lia. cbn [shr shr_record_of_loc shr_m].
    assert (HMpos : 0 < M) by (change (2 ^ 52) with 4503599627370496 in *; lia).
    destruct M as [| p | p]; try lia. reflexivity.
  - assert (HM53 : M = 2 ^ 53) by lia. rewrite HM53.
    change (Zdigits2 (2 ^ 53)) with 54.
    rewrite (fexp_normal (54 + (ex + n))) by lia.
    replace (54 + (ex + n) - 53 - (ex + n)) with 1 by lia.
    cbn [shr shr_record_of_loc iter_pos]. reflexivity.
Qed.

(** *** Division and multiplication *)

Lemma new_location_located (q m2 r : Z) :
  0 <= q -> 0 <= r < m2 ->
  located (q * m2 + r) m2 (shr_record_of_loc q (new_location m2 r)).
Proof.
  intros Hq Hr. unfold located, new_location.
  assert (Hparity : Z.even m2 = true \/ exists k, m2 = 2 * k + 1).
  { destruct (Z.even m2) eqn:E; [now left | right].
    rewrite <- Z.negb_odd in E. apply negb_false_iff, Z.odd_spec in E.
    destruct E as [k ->]. now exists k. }
  destruct (Z.even m2) eqn:Eeven.
  - unfold new_location_even. destruct (Z.eqb_spec r 0) as [-> | Hr0].
    + cbn [shr_record_of_loc shr_m shr_r shr_s]. lia.
    + destruct (Z.compare_spec (2 * r) m2);
        cbn [shr_record_of_loc shr_m shr_r shr_s]; lia.
  - destruct Hparity as [Hp | [k Hk]]; [discriminate Hp |].
    unfold new_location_odd. destruct (Z.eqb_spec r 0) as [-> | Hr0].
    + cbn [shr_record_of_loc shr_m shr_r shr_s]. lia.
    + destruct (Z.compare_spec (2 * r + 1) m2);
        cbn [shr_record_of_loc shr_m shr_r shr_s]; lia.
Qed.

(** The quotient of two normal numbers, when it is not subnormal: the
    numerator is scaled by [2^53] and the quotient rounded to 53 bits. *)
Lemma SFdiv_normal (sx sy : bool) (mx my : positive) (ex ey : Z) :
  Zpos (digits2_pos mx) = 53 -> Zpos (digits2_pos my) = 53 ->
  -1074 <= ex - ey - 53 ->
  let n := Zdigits2 (Zpos mx * 2 ^ 53 / Zpos my) - 53 in
  (n = 0 \/ n = 1)
  /\ exists M : Z,
      2 ^ 52 <= M <= 2 ^ 53
      /\ 2 * Z.abs (M * (2 ^ n * Zpos my) - Zpos mx * 2 ^ 53) <= 2 ^ n * Zpos my
      /\ SFdiv prec emax (S754_finite sx mx ex) (S754_finite sy my ey)
         = rounded (xorb sx sy) M (ex - ey - 53 + n).
Proof.
  intros Hdx Hdy He n.
  pose proof (digits2_pos_bounds mx) as Hx. rewrite Hdx in Hx.
  pose proof (digits2_pos_bounds my) as Hy. rewrite Hdy in Hy.
  change (2 ^ (53 - 1)) with 4503599627370496 in *.
  change (2 ^ 53) with 9007199254740992 in *.
  set (q := Zpos mx * 9007199254740992 / Zpos my) in *.
  set (r := Zpos mx * 9007199254740992 mod Zpos my).
  assert (Hqr : Zpos mx * 9007199254740992 = q * Zpos my + r /\ 0 <= r < Zpos my).
  { unfold q, r. split.
    - rewrite (Z.mul_comm (_ / _)). apply Z.div_mod. lia.
    - apply Z.mod_pos_bound. lia. }
  destruct Hqr as [Hq Hr].
  assert (Hqb : 2 ^ 52 <= q < 2 ^ 54).
  { change (2 ^ 52) with 4503599627370496. change (2 ^ 54) with 18014398509481984.
    split.
    - apply Z.div_le_lower_bound; nia.
    - apply Z.div_lt_upper_bound; nia. }
  assert (Hn : n = 0 \/ n = 1).
  { unfold n. destruct (Z.lt_ge_cases q (2 ^ 53)) as [Hlt | Hge].
    - left. rewrite (Zdigits2_unique q 53); [reflexivity | | lia].
      change (53 - 1) with 52. lia.
    - right. rewrite (Zdigits2_unique q 54); [reflexivity | | lia].
      change (54 - 1) with 53. lia. }
  split; [exact Hn |].
  assert (Hcore : SFdiv_core_binary prec emax (Zpos mx) ex (Zpos my) ey
                  = (q, ex - ey - 53, new_location (Zpos my) r)).
  { unfold SFdiv_core_binary. cbn [Zdigits2]. rewrite Hdx, Hdy.
    replace (53 + ex - (53 + ey)) with (ex - ey) by lia.
    rewrite (fexp_normal (ex - ey)) by lia.
    rewrite Z.min_l by lia.
    replace (ex - ey - (ex - ey - 53)) with 53 by lia.
    rewrite Z.shiftl_mul_pow2 by lia.
    change (2 ^ 53) with 9007199254740992.
    assert (Hu : Z.div_eucl (Zpos mx * 9007199254740992) (Zpos my) = (q, r)).
    { unfold q, r, Z.div, Z.modulo.
      now destruct (Z.div_eucl (Zpos mx * 9007199254740992) (Zpos my)). }
    rewrite Hu. reflexivity. }
  assert (Hlocated : located (Zpos mx * 9007199254740992) (Zpos my)
                       (shr_record_of_loc q (new_location (Zpos my) r))).
  { rewrite Hq. apply new_location_located; [| exact Hr].
    change (2 ^ 52) with 4503599627370496 in Hqb. lia. }
  assert (Hq0 : 0 < q) by (change (2 ^ 52) with 4503599627370496 in Hqb; lia).
  destruct (binary_round_aux_normal (xorb sx sy) q (ex - ey - 53)
              (new_location (Zpos my) r) _ _ Hq0 ltac:(fold n; lia) ltac:(fold n; lia)
              Hlocated) as (M & HM & Hnear & Hround).
  fold n in Hnear, Hround.
  exists M. split; [exact HM | split; [exact Hnear |]].
  cbn [SFdiv]. rewrite Hcore. exact Hround.
Qed.

(** The product of two numbers, when it is neither subnormal nor short of
    53 bits: the product of the mantissas rounded to 53 bits. *)
Lemma SFmul_normal (sx sy : bool) (mx my : positive) (ex ey : Z) :
  let n := Zdigits2 (Zpos mx * Zpos my) - 53 in
  0 <= n -> -1074 <= ex + ey + n ->
  exists M : Z,
    2 ^ 52 <= M <= 2 ^ 53
    /\ 2 * Z.abs (M * 2 ^ n - Zpos mx * Zpos my) <= 2 ^ n
    /\ SFmul prec emax (S754_finite sx mx ex) (S754_finite sy my ey)
       = rounded (xorb sx sy) M (ex + ey + n).
Proof.
  intros n Hn He.
  assert (Hlocated : located (Zpos mx * Zpos my) 1
                       (shr_record_of_loc (Zpos mx * Zpos my) loc_Exact)).
  { unfold located. cbn [shr_record_of_loc shr_m shr_r shr_s]. lia. }
  destruct (binary_round_aux_normal (xorb sx sy) (Zpos mx * Zpos my) (ex + ey) loc_Exact
              _ _ ltac:(lia) Hn He Hlocated) as (M & HM & Hnear & Hround).
  fold n in Hnear, Hround. rewrite Z.mul_1_r in Hnear.
  exists M. split; [exact HM | split; [exact Hnear |]].
  cbn [SFmul]. rewrite Pos2Z.inj_mul. exact Hround.
Qed.

(** *** The width times the scale

    For a positive normal width [w] whose scale [420 / w] does not overflow,
    [w * (420 / w)] is 420 or one of its two neighbours, [420 - 2^-44] and
    [420 + 2^-44]. *)
Lemma width_times_scale (m : positive) (e : Z) :
  Zpos (digits2_pos m) = 53 -> -1074 <= e <= 971 ->
  isFinite (div (ofZ 420) (S754_finite false m e)) = true ->
  exists k : Z,
    -1 <= k <= 1
    /\ mul (S754_finite false m e) (div (ofZ 420) (S754_finite false m e))
       = S754_finite false (Z.to_pos (7388718138654720 + k)) (-44).
Proof.
  intros Hd He Hfinite.
  change (ofZ 420) with (S754_finite false 7388718138654720 (-44)) in *.
  unfold div, mul in *.
  destruct (SFdiv_normal false false 7388718138654720 m (-44) e eq_refl Hd ltac:(lia))
    as (Hn & M & HM & Hnear & Hdiv).
  rewrite Hdiv in *. clear Hdiv.
  pose proof (digits2_pos_bounds m) as Hm. rewrite Hd in Hm.
  set (n := Zdigits2 (7388718138654720 * 2 ^ 53 / Zpos m) - 53) in *.
  assert (Hq : n = 0 -> Zpos m <> 7388718138654720).
  { intros Hn0 Em. unfold n in Hn0. rewrite Em in Hn0. vm_compute in Hn0. discriminate Hn0. }
  clearbody n.
  change (2 ^ (53 - 1)) with 4503599627370496 in *.
  change (2 ^ 52) with 4503599627370496 in *.
  change (2 ^ 53) with 9007199254740992 in *.
  cbn [xorb] in *. unfold rounded in *.
  change (2 ^ 52) with 4503599627370496 in *.
  change (2 ^ 53) with 9007199254740992 in *.
  destruct (Z.ltb_spec M 9007199254740992) as [HM53 | HM53].
  - destruct (Z.leb_spec (-44 - e - 53 + n) 971) as [HE | HE]; [| discriminate Hfinite].
    set (P := Zpos m * M).
    assert (HP : 2 * Z.abs (2 ^ n * P - 7388718138654720 * 9007199254740992)
                 <= 2 ^ n * Zpos m).
    { unfold P. replace (2 ^ n * (Zpos m * M)) with (M * (2 ^ n * Zpos m)) by ring.
      exact Hnear. }
    assert (HPdigits : Zdigits2 P = 106 - n).
    { apply Zdigits2_unique; [| lia].
      destruct Hn as [-> | ->].
      - change (2 ^ 0) with 1 in HP. change (2 ^ (106 - 0 - 1)) with (2 ^ 105).
        change (106 - 0) with 106. lia.
      - change (2 ^ 1) with 2 in HP. change (2 ^ (106 - 1 - 1)) with (2 ^ 104).
        change (106 - 1) with 105. lia. }
    assert (HMpos : Zpos (Z.to_pos M) = M) by (apply Z2Pos.id; lia).
    destruct (SFmul_normal false false m (Z.to_pos M) e (-44 - e - 53 + n))
      as (M' & HM' & Hnear' & Hmul).
    + rewrite HMpos. fold P. rewrite HPdigits. lia.
    + rewrite HMpos. fold P. rewrite HPdigits. lia.
    + rewrite HMpos in Hnear', Hmul. fold P in Hnear', Hmul. rewrite HPdigits in Hnear', Hmul.
      replace (e + (-44 - e - 53 + n) + (106 - n - 53)) with (-44) in Hmul by lia.
      exists (M' - 7388718138654720).
      assert (Hk : -1 <= M' - 7388718138654720 <= 1).
      { destruct Hn as [-> | ->].
        - change (2 ^ 0) with 1 in HP. change (2 ^ (106 - 0 - 53)) with (2 ^ 53) in Hnear'.
          lia.
        - change (2 ^ 1) with 2 in HP. change (2 ^ (106 - 1 - 53)) with (2 ^ 52) in Hnear'.
          lia. }
      split; [exact Hk |].
      rewrite Hmul. cbn [xorb]. unfold rounded.
      change (2 ^ 53) with 9007199254740992.
      destruct (Z.ltb_spec M' 9007199254740992) as [H53 | H53]; [| lia].
      change (-44 <=? 971) with true. cbv iota.
      now replace (7388718138654720 + (M' - 7388718138654720)) with M' by lia.
  - exfalso. assert (M = 9007199254740992) by lia. subst M.
    destruct Hn as [Hn0 | Hn1].
    + apply (Hq Hn0). rewrite Hn0 in Hnear. change (2 ^ 0) with 1 in Hnear. lia.
    + rewrite Hn1 in Hnear. change (2 ^ 1) with 2 in Hnear. lia.
Qed.

End Rounding.

Section MappingProperties.

Context {host : Host}.

Lemma normal_width_finite (a b : number) :
  isPositiveNormal (sub b a) = true -> isFinite a = true /\ isFinite b = true.
Proof.
  intros H.
  destruct a as [sa | sa | | sa ma ea], b as [sb | sb | | sb mb eb];
    first [ split; reflexivity | cbv in H; discriminate H
          | destruct sa, sb; cbv in H; discriminate H ].
Qed.

(** The upper end of an axis: [40 + w * (420 / w)] and [460 - w * (420 / w)]
    for a positive normal width [w] whose scale is finite. *)
Lemma upper_corner (w : number) :
  isPositiveNormal w = true -> isFinite (div (ofZ 420) w) = true ->
  (exists k : Z,
      (-1 <= k <= 1)%Z
      /\ add (ofZ 40) (mul w (div (ofZ 420) w)) = scaled (460 * 2 ^ 44 + k) (-44))
  /\ (exists k : Z,
         (-1 <= k <= 1)%Z
         /\ sub (ofZ 460) (mul w (div (ofZ 420) w)) = scaled (40 * 2 ^ 44 + k) (-44)).
Proof.
  intros Hw Hscale. destruct w as [s | s | | s m e]; try discriminate Hw.
  destruct s; [discriminate Hw |]. cbn [isPositiveNormal] in Hw.
  apply andb_true_iff in Hw. destruct Hw as [Hw He2].
  apply andb_true_iff in Hw. destruct Hw as [Hd He1].
  apply Z.eqb_eq in Hd. apply Z.leb_le in He1, He2.
  destruct (width_times_scale m e Hd (conj He1 He2) Hscale) as (k & Hk & ->).
  assert (Hcases : k = (-1)%Z \/ k = 0%Z \/ k = 1%Z) by lia.
  split.
  - exists k. split; [exact Hk |].
    destruct Hcases as [-> | [-> | ->]]; vm_compute; reflexivity.
  - exists (- k)%Z. split; [lia |].
    destruct Hcases as [-> | [-> | ->]]; vm_compute; reflexivity.
Qed.

(** C5, as amended: when the bounding box is not degenerate, its width
    [xMax - xMin] and its height [yMax - yMin] are normal numbers (they
    neither overflow nor are subnormal) and the two scale factors are finite
    (the divisions do not overflow), the point [(xMin, yMin)] is drawn at
    exactly [(40, 460)], and the point [(xMax, yMax)] is drawn within
    [2^-44], about [5.7e-14], of [(460, 40)]: its x is [460 - 2^-44], 460 or
    [460 + 2^-44], and its y is [40 - 2^-44], 40 or [40 + 2^-44]. *)
Theorem C5_corner_mapping (datasets : list DataSet) (r : Range) :
  let sx := xScale (xMin r) (xMax r) in
  let sy := yScale (yMin r) (yMax r) in
  dataRange datasets = Normal r ->
  lt (xMin r) (xMax r) = true -> lt (yMin r) (yMax r) = true ->
  isPositiveNormal (sub (xMax r) (xMin r)) = true ->
  isPositiveNormal (sub (yMax r) (yMin r)) = true ->
  isFinite sx = true -> isFinite sy = true ->
  (pathX (xMin r) sx (xMin r) = ofZ 40 /\ pathY (yMin r) sy (yMin r) = ofZ 460)
  /\ (exists k : Z,
         (-1 <= k <= 1)%Z
         /\ pathX (xMin r) sx (xMax r) = scaled (460 * 2 ^ 44 + k) (-44))
  /\ (exists k : Z,
         (-1 <= k <= 1)%Z
         /\ pathY (yMin r) sy (yMax r) = scaled (40 * 2 ^ 44 + k) (-44)).
Proof.
  intros sx sy _ _ _ Hw Hh Hsx Hsy.
  destruct (normal_width_finite _ _ Hw) as [Hxmin _].
  destruct (normal_width_finite _ _ Hh) as [Hymin _].
  split; [split | split].
  - now apply pathX_lower.
  - now apply pathY_lower.
  - exact (proj1 (upper_corner _ Hw Hsx)).
  - exact (proj2 (upper_corner _ Hh Hsy)).
Qed.

End MappingProperties.

(** [C5_corner_mapping] on the segment from [(0, 0)] to [(39, 39)], whose
    upper corner is drawn at [(460 + 2^-44, 40 - 2^-44)]. *)
Lemma C5_corner_mapping_witness :
  exists r : Range,
    dataRange (segment 39 39) = Normal r
    /\ (pathX (xMin r) (xScale (xMin r) (xMax r)) (xMin r) = ofZ 40
        /\ pathY (yMin r) (yScale (yMin r) (yMax r)) (yMin r) = ofZ 460)
    /\ (exists k : Z,
           (-1 <= k <= 1)%Z
           /\ pathX (xMin r) (xScale (xMin r) (xMax r)) (xMax r)
              = scaled (460 * 2 ^ 44 + k) (-44))
    /\ (exists k : Z,
           (-1 <= k <= 1)%Z
           /\ pathY (yMin r) (yScale (yMin r) (yMax r)) (yMax r)
              = scaled (40 * 2 ^ 44 + k) (-44)).
Proof.
  set (r := boundingBox (segment 39 39)).
  assert (Hr : dataRange (segment 39 39) = Normal r)
    by (apply dataRange_returns, segment_within).
  assert (Hx : lt (xMin r) (xMax r) = true) by (vm_compute; reflexivity).
  assert (Hy : lt (yMin r) (yMax r) = true) by (vm_compute; reflexivity).
  assert (Hw : isPositiveNormal (sub (xMax r) (xMin r)) = true)
    by (vm_compute; reflexivity).
  assert (Hh : isPositiveNormal (sub (yMax r) (yMin r)) = true)
    by (vm_compute; reflexivity).
  assert (Hsx : isFinite (xScale (xMin r) (xMax r)) = true) by (vm_compute; reflexivity).
  assert (Hsy : isFinite (yScale (yMin r) (yMax r)) = true) by (vm_compute; reflexivity).
  exists r. split; [exact Hr |].
  exact (C5_corner_mapping (segment 39 39) r Hr Hx Hy Hw Hh Hsx Hsy).
Defined.

(** C5 as stated fails.  On the segment from [(0, 0)] to [(39, 39)] the box
    is not degenerate and the scale [420 / 39] is rounded: the point
    [(xMax, yMax)] is drawn at [(460.00000000000006, 39.99999999999994)].  On
    [narrowSegment] the box is not degenerate either, the scale [420 / 2^-1074]
    overflows to [Infinity], and the point [(xMin, yMin)] is drawn at
    [x = NaN].  On [wideSegment] the width [2^1023 - (- 2^1023)] overflows to
    [Infinity], the scale is 0 and the point [(xMax, yMax)] is drawn at
    [x = NaN]. *)
Lemma C5_counterexample :
  (let r := boundingBox (segment 39 39) in
   let sx := xScale (xMin r) (xMax r) in
   let sy := yScale (yMin r) (yMax r) in
   dataRange (segment 39 39) = Normal r
   /\ lt (xMin r) (xMax r) = true /\ lt (yMin r) (yMax r) = true
   /\ pathX (xMin r) sx (xMax r) = S754_finite false 8092405580431361 (-44)
   /\ pathX (xMin r) sx (xMax r) <> ofZ 460
   /\ pathY (yMin r) sy (yMax r) = S754_finite false 5629499534213112 (-47)
   /\ pathY (yMin r) sy (yMax r) <> ofZ 40)
  /\ (let r := boundingBox narrowSegment in
      let sx := xScale (xMin r) (xMax r) in
      dataRange narrowSegment = Normal r
      /\ lt (xMin r) (xMax r) = true /\ lt (yMin r) (yMax r) = true
      /\ sx = Infinity
      /\ pathX (xMin r) sx (xMin r) = NaN
      /\ pathX (xMin r) sx (xMin r) <> ofZ 40)
  /\ (let r := boundingBox wideSegment in
      let sx := xScale (xMin r) (xMax r) in
      dataRange wideSegment = Normal r
      /\ lt (xMin r) (xMax r) = true /\ lt (yMin r) (yMax r) = true
      /\ sub (xMax r) (xMin r) = Infinity
      /\ sx = ofZ 0
      /\ pathX (xMin r) sx (xMax r) = NaN
      /\ pathX (xMin r) sx (xMax r) <> ofZ 460).
Proof.
  assert (Hwithin : forall datasets : list (@DataSet sampleHost),
             Forall (fun dataset => (List.length (data dataset) <= 2)%nat) datasets ->
             dataRange datasets = Normal (boundingBox datasets)).
  { intros datasets Hall. apply dataRange_returns.
    eapply Forall_impl; [| exact Hall]. intros dataset Hd. cbv beta in Hd.
    apply small_within_limit. lia. }
  split; [| split]; cbv zeta;
    repeat match goal with |- _ /\ _ => split end;
    first [ apply Hwithin; repeat constructor
          | vm_compute; reflexivity
          | intros E; vm_compute in E; discriminate E ].
Qed.

(** ** A degenerate range *)

Section DegenerateRange.

Context {host : Host}.

(** C1 fails on the code: with the two points [(1, 0)] and [(1, 1)] the width
    of the box is 0, [xScale] is [420 / 0 = Infinity], the x coordinate of
    each point is [40 + 0 * Infinity = NaN], and [generateSVG] returns a
    document whose path data is "NaN,460 NaN,40"; nothing is thrown. *)
Theorem C1_degenerate_range_writes_NaN (t : Time) :
  let point b := {| x := ofZ 1; y := ofZ b; value := NumberValue (ofZ b);
                    receiveTime := t; headerStamp := None |} in
  let dataset := {| label := None; data := [point 0%Z; point 1%Z] |} in
  let r := {| xMin := ofZ 1; xMax := ofZ 1; yMin := ofZ 0; yMax := ofZ 1 |} in
  let sx := xScale (xMin r) (xMax r) in
  let sy := yScale (yMin r) (yMax r) in
  dataRange [dataset] = Normal r
  /\ sx = Infinity
  /\ pathX (xMin r) sx (ofZ 1) = NaN
  /\ pathData r sx sy dataset = "NaN,460 NaN,40"
  /\ generateSVG [dataset]
     = Normal (frame r ++ pathElement "NaN,460 NaN,40" ++ svgClose)%string.
Proof.
  intros point dataset r sx sy.
  assert (Hall : withinSpreadLimit [dataset])
    by (repeat constructor; apply small_within_limit; vm_compute; discriminate).
  assert (Hbox : boundingBox [dataset] = r) by (vm_compute; reflexivity).
  assert (Hpath : pathData r sx sy dataset = "NaN,460 NaN,40")
    by (vm_compute; reflexivity).
  split; [now rewrite (dataRange_returns [dataset] Hall), Hbox |].
  split; [vm_compute; reflexivity |].
  split; [vm_compute; reflexivity |].
  split; [exact Hpath |].
  rewrite (generateSVG_returns [dataset] Hall), Hbox. unfold pathElements. cbn [map].
  fold sx. fold sy. rewrite Hpath. reflexivity.
Qed.

End DegenerateRange.

(** The scanner accepts nested and self-closing elements and rejects an
    element left open, crossing tags and an unquoted bracket. *)
Example wellNested_accepts :
  wellNested (tpl "<?xml version='1.0'?><a x='1'><b /><c>text</c></a>") = true.
Proof. reflexivity. Qed.

Example wellNested_rejects :
  wellNested "<a><b></b>" = false
  /\ wellNested "<a><b></a></b>" = false
  /\ wellNested "<a>1 > 0</a>" = false
  /\ wellNested "</a>" = false.
Proof. repeat split. Qed.

Lemma scan_app (a b : string) (st : scanner) :
  scan st (a ++ b)
  = match scan st a with
    | Some st' => scan st' b
    | None => None
    end.
Proof.
  revert st. induction a as [| c a IH]; intros st; [reflexivity |].
  cbn [append scan]. destruct (scanChar st c) as [st' |]; [apply IH | reflexivity].
Qed.

Lemma join_empty_cons (a : string) (l : list string) :
  join EmptyString (a :: l) = (a ++ join EmptyString l)%string.
Proof.
  change (a :: l) with ([a] ++ l)%list. now rewrite join_empty_app.
Qed.

(** ** An input without points *)

Section NoPoints.

Context {host : Host}.

Lemma boundingBox_no_points (datasets : list DataSet) :
  noPoints datasets -> boundingBox datasets = emptyRange.
Proof.
  intros Hall.
  assert (Hloop : forEach datasets extendRange emptyRange = Normal emptyRange).
  { induction datasets as [| dataset datasets IH]; [reflexivity |].
    inversion Hall as [| d ds Hd Hds]; subst. cbn [forEach].
    unfold extendRange. rewrite Hd. cbn [map]. cbv zeta.
    rewrite !spread_returns, !bindC_Normal by (cbn; lia).
    now apply IH. }
  assert (Hwithin : withinSpreadLimit datasets).
  { eapply Forall_impl; [| exact Hall]. intros dataset Hd. cbv beta in Hd.
    rewrite Hd. cbn. lia. }
  rewrite (range_loop datasets emptyRange Hwithin) in Hloop.
  injection Hloop as Hxmin Hxmax Hymin Hymax.
  unfold boundingBox, emptyRange. cbn [xMin xMax yMin yMax] in *.
  now rewrite Hxmin, Hxmax, Hymin, Hymax.
Qed.

Lemma noPoints_within (datasets : list DataSet) :
  noPoints datasets -> withinSpreadLimit datasets.
Proof.
  intros Hall. eapply Forall_impl; [| exact Hall]. intros dataset Hd. cbv beta in Hd.
  rewrite Hd. cbn. lia.
Qed.

Lemma pathElements_no_points (r : Range) (datasets : list DataSet) :
  noPoints datasets ->
  pathElements r datasets = map (fun _ => pathElement EmptyString) datasets.
Proof.
  intros Hall. unfold pathElements. apply map_ext_in. intros dataset Hin.
  pose proof (proj1 (Forall_forall _ _) Hall dataset Hin) as Hd. cbv beta in Hd.
  unfold pathData, resampledData. rewrite Hd. reflexivity.
Qed.

Lemma scan_svgClose : scan insideSvg svgClose = Some {| openTags := []; mode := InText |}.
Proof. vm_compute. reflexivity. Qed.

(** The frame opens with a line feed and four spaces, and the XML
    declaration comes after them. *)
Lemma frame_opening (r : Range) :
  exists rest : string, frame r = (newline ++ "    <?xml" ++ rest)%string.
Proof.
  unfold frame.
  assert (Hopen : exists rest, svgOpen = (newline ++ "    <?xml" ++ rest)%string).
  { eexists. vm_compute. reflexivity. }
  destruct Hopen as [rest ->]. eexists.
  change (newline ++ "    <?xml" ++ rest)%string
    with ((newline ++ "    <?xml") ++ rest)%string.
  rewrite append_assoc. reflexivity.
Qed.

(** C8 fails on the code.  On an input without points [generateSVG] throws
    nothing and returns the frame of the empty range, whose tick labels are
    all "NaN", one [path] element with the path data "M" per dataset, and the
    closing tag; with no dataset at all the document has no [path] element.
    But the document is not syntactically valid: it opens with a line feed
    and four spaces, the XML declaration [<?xml ...?>] comes after them, and
    XML allows the declaration at the very start of a document only. *)
Theorem C8_no_points (datasets : list DataSet) :
  noPoints datasets ->
  exists document rest : string,
    generateSVG datasets = Normal document
    /\ document = (newline ++ "    <?xml" ++ rest)%string
    /\ String.get 0 document = Some lineFeed
    /\ document
       = (frame emptyRange
            ++ join EmptyString (map (fun _ => pathElement EmptyString) datasets)
            ++ svgClose)%string
    /\ Forall (fun i => tickLabel Infinity negInfinity 1 i = "NaN"
                        /\ tickLabel Infinity negInfinity 2 i = "NaN") tickIndices
    /\ generateSVG [] = Normal (frame emptyRange ++ svgClose)%string
    /\ index 0 "<path" (frame emptyRange ++ svgClose)%string = None.
Proof.
  intros Hall.
  destruct (frame_opening emptyRange) as [rest Hrest].
  exists (frame emptyRange
            ++ join EmptyString (map (fun _ => pathElement EmptyString) datasets)
            ++ svgClose)%string.
  exists (rest ++ join EmptyString (map (fun _ => pathElement EmptyString) datasets)
               ++ svgClose)%string.
  split; [| split; [| split; [| split; [reflexivity |]]]].
  - rewrite (generateSVG_returns datasets (noPoints_within datasets Hall)).
    rewrite (boundingBox_no_points datasets Hall).
    now rewrite (pathElements_no_points emptyRange datasets Hall).
  - rewrite Hrest.
    change (newline ++ "    <?xml" ++ rest)%string
      with ((newline ++ "    <?xml") ++ rest)%string.
    rewrite append_assoc. reflexivity.
  - rewrite Hrest. reflexivity.
  - split; [repeat constructor | split].
    + rewrite (generateSVG_returns [] (Forall_nil _)). reflexivity.
    + vm_compute. reflexivity.
Qed.

End NoPoints.

(** [C8_no_points] on two datasets without points. *)
Lemma C8_no_points_witness :
  let datasets : list (@DataSet sampleHost) :=
    [ {| label := Some "a"; data := [] |}; {| label := None; data := [] |} ] in
  exists document : string,
    generateSVG datasets = Normal document
    /\ String.get 0 document = Some lineFeed.
Proof.
  intros datasets.
  assert (Hall : noPoints datasets) by (repeat constructor).
  destruct (C8_no_points datasets Hall) as (document & rest & Hdoc & _ & Hfirst & _).
  exists document. split; [exact Hdoc | exact Hfirst].
Defined.

(** ** More on downsampling *)

Lemma filterFrom_all {A : Type} (keep : A -> nat -> bool) (l : list A) (i : nat) :
  (forall item k, keep item k = true) -> filterFrom keep i l = l.
Proof.
  intros Hkeep. revert i. induction l as [| item rest IH]; intros i; [reflexivity |].
  cbn [filterFrom]. now rewrite Hkeep, IH.
Qed.

Lemma length_filterFrom_stride {A : Type} (r : nat) (l : list A) :
  (0 < r)%nat ->
  List.length (filterFrom (fun _ k => onStride r k) 0 l)
  = ((List.length l + r - 1) / r)%nat.
Proof.
  intros Hr.
  rewrite <- (length_map Some), (filterFrom_indices (onStride r) l 0), length_map.
  assert (Hstride : forall k, onStride r k = Nat.eqb (k mod r) 0)
    by (intros k; unfold onStride; destruct r; [lia | reflexivity]).
  rewrite (filter_ext _ _ Hstride), (stride_indices r (List.length l) Hr), length_map.
  apply length_seq.
Qed.

Section DownsamplingBounds.

Context {host : Host}.

(** X1: whatever the number of points of a dataset, at most [maxPoints]
    (1000) of them are kept for its path. *)
Theorem resampledData_at_most_maxPoints (dataset : DataSet) :
  (List.length (resampledData dataset) <= maxPoints)%nat.
Proof.
  unfold resampledData, filter_index.
  destruct (data dataset) as [| first rest] eqn:Edata; [cbn; unfold maxPoints; lia |].
  set (N := List.length (first :: rest)).
  assert (HN : (0 < N)%nat) by (unfold N; cbn; lia).
  destruct (resampleFactor_ceiling N HN) as [Hr [_ Hceil]].
  rewrite (length_filterFrom_stride (resampleFactor N) (first :: rest) Hr). fold N.
  unfold maxPoints.
  assert (H : ((N + resampleFactor N - 1) / resampleFactor N < 1001)%nat).
  { apply Nat.Div0.div_lt_upper_bound. nia. }
  lia.
Qed.

(** X2: a dataset of at most [maxPoints] points is not downsampled: every
    point is kept, in order. *)
Theorem resampledData_small_dataset (dataset : DataSet) :
  (List.length (data dataset) <= maxPoints)%nat ->
  resampledData dataset = data dataset.
Proof.
  intros HN. unfold resampledData, filter_index.
  destruct (data dataset) as [| first rest] eqn:Edata; [reflexivity |].
  set (N := List.length (first :: rest)) in *.
  assert (Hpos : (0 < N)%nat) by (unfold N; cbn; lia).
  destruct (resampleFactor_ceiling N Hpos) as [Hr [Hlow _]].
  assert (Hone : resampleFactor N = 1%nat) by (unfold maxPoints in HN; lia).
  rewrite Hone. apply filterFrom_all. intros item k. unfold onStride.
  now rewrite Nat.mod_1_r.
Qed.

End DownsamplingBounds.

(** [resampledData_small_dataset] on a segment of two points. *)
Lemma resampledData_small_dataset_witness :
  let dataset : @DataSet sampleHost :=
    {| label := None; data := [sampleDatum 0 0; sampleDatum 10 10] |} in
  resampledData dataset = data dataset.
Proof.
  intros dataset. apply (resampledData_small_dataset dataset).
  apply Nat.leb_le. vm_compute. reflexivity.
Defined.

(** ** The text of the table *)

Lemma countChar_append (c : ascii) (a b : string) :
  countChar c (a ++ b) = (countChar c a + countChar c b)%nat.
Proof.
  induction a as [| ch a IH]; [reflexivity |]. cbn [append countChar].
  rewrite IH. lia.
Qed.

(** The occurrences in a [join]: those of the parts, and those of the
    separator between two parts. *)
Lemma countChar_join (c : ascii) (sep : string) (parts : list string) :
  countChar c (join sep parts)
  = (list_sum (map (countChar c) parts)
     + (List.length parts - 1) * countChar c sep)%nat.
Proof.
  induction parts as [| part parts IH]; [reflexivity |].
  destruct parts as [| part' parts].
  - cbn. lia.
  - change (join sep (part :: part' :: parts))
      with (part ++ sep ++ join sep (part' :: parts))%string.
    rewrite !countChar_append, IH. cbn [map list_sum fold_right List.length].
    replace (S (S (List.length parts)) - 1)%nat with (S (S (List.length parts) - 1))
      by lia.
    rewrite Nat.mul_succ_l. lia.
Qed.

Section TableText.

Context {host : Host}.

Lemma countChar_rowString (c : ascii) (row : list jsvalue) :
  cellsWithout c row ->
  countChar c (rowString row) = ((List.length row - 1) * countChar c ",")%nat.
Proof.
  intros Hrow. unfold rowString. rewrite countChar_join, length_map.
  replace (list_sum (map (countChar c) (map elementString row))) with 0%nat; [lia |].
  induction Hrow as [| cell row Hcell Hrow IH]; [reflexivity |].
  cbn [map list_sum fold_right]. rewrite Hcell. exact IH.
Qed.

Lemma length_getCSVRow (topic : option string) (datum : Datum) :
  List.length (getCSVRow topic datum) = 5%nat.
Proof. reflexivity. Qed.

Lemma length_row (datasets : list DataSet) (xAxisVal : PlotXAxisVal) :
  Forall (fun row => List.length row = 5%nat) (combinedLines datasets xAxisVal).
Proof.
  rewrite combinedLines_rows. constructor; [reflexivity |].
  apply Forall_forall. intros row Hrow. unfold dataRows in Hrow.
  apply in_flat_map in Hrow. destruct Hrow as (dataset & _ & Hrow).
  apply in_map_iff in Hrow. destruct Hrow as (datum & <- & _). reflexivity.
Qed.

Lemma countChar_rows (c : ascii) (rows : list (list jsvalue)) :
  Forall (cellsWithout c) rows ->
  Forall (fun row => List.length row = 5%nat) rows ->
  list_sum (map (countChar c) (map rowString rows))
  = (4 * List.length rows * countChar c ",")%nat.
Proof.
  intros Hcells. induction Hcells as [| row rows Hrow Hrows IH]; intros Hfive;
    [reflexivity |].
  inversion Hfive as [| row' rows' Hlen Hlens]; subst.
  cbn [map list_sum fold_right List.length].
  change (fold_right Nat.add 0%nat (map (countChar c) (map rowString rows)))
    with (list_sum (map (countChar c) (map rowString rows))).
  rewrite (countChar_rowString c row Hrow), Hlen, (IH Hlens). nia.
Qed.

(** X3: when no cell of the table holds a line feed once printed, the text
    [generateCSV] returns has as many line feeds as the datasets have points:
    one line for the header and one per point; when no cell holds a comma
    either, the text has four commas per line. *)
Theorem generateCSV_lines_and_commas (datasets : list DataSet) (xAxisVal : PlotXAxisVal) :
  Forall (cellsWithout lineFeed) (combinedLines datasets xAxisVal) ->
  exists text : string,
    generateCSV datasets xAxisVal = Normal text
    /\ countChar lineFeed text = pointCount datasets
    /\ (Forall (cellsWithout comma) (combinedLines datasets xAxisVal) ->
        countChar comma text = (4 * (1 + pointCount datasets))%nat).
Proof.
  intros Hfeed. eexists. split; [reflexivity |].
  pose proof (length_row datasets xAxisVal) as Hfive.
  assert (Hrows : List.length (combinedLines datasets xAxisVal)
                  = S (pointCount datasets)).
  { rewrite combinedLines_rows. cbn [List.length]. now rewrite length_dataRows. }
  split.
  - rewrite countChar_join, length_map, (countChar_rows lineFeed _ Hfeed Hfive), Hrows.
    change (countChar lineFeed ",") with 0%nat.
    change (countChar lineFeed newline) with 1%nat. lia.
  - intros Hcomma.
    rewrite countChar_join, length_map, (countChar_rows comma _ Hcomma Hfive), Hrows.
    change (countChar comma ",") with 1%nat.
    change (countChar comma newline) with 0%nat. lia.
Qed.

Lemma dataRows_app (l1 l2 : list DataSet) :
  dataRows (l1 ++ l2) = (dataRows l1 ++ dataRows l2)%list.
Proof. unfold dataRows. apply flat_map_app. Qed.

(** X4: the table of two lists of datasets put end to end is the table of the
    first list followed by the rows of the second, each behind a line feed;
    a dataset without points adds nothing to the table. *)
Theorem generateCSV_app (first second : list DataSet) (xAxisVal : PlotXAxisVal) :
  exists text : string,
    generateCSV first xAxisVal = Normal text
    /\ generateCSV (first ++ second) xAxisVal
       = Normal (text
                   ++ join EmptyString
                        (map (fun row => newline ++ rowString row) (dataRows second)))%string
    /\ forall topic : option string,
        generateCSV (first ++ {| label := topic; data := [] |} :: second) xAxisVal
        = generateCSV (first ++ second) xAxisVal.
Proof.
  eexists. split; [reflexivity | split].
  - unfold generateCSV. rewrite !combinedLines_rows, dataRows_app.
    cbn [map]. rewrite !join_cons, !map_map, map_app, join_empty_app, append_assoc.
    reflexivity.
  - intros topic. unfold generateCSV. rewrite !combinedLines_rows, !dataRows_app.
    reflexivity.
Qed.

End TableText.

(** ** The lines of the table *)

Lemma splitOn_plain (sep : ascii) (s : string) :
  countChar sep s = 0%nat -> splitOn sep s = [s].
Proof.
  induction s as [| c s IH]; intros H; [reflexivity |].
  cbn [countChar] in H. cbn [splitOn]. rewrite Ascii.eqb_sym.
  destruct (Ascii.eqb sep c); [discriminate H |]. now rewrite IH.
Qed.

Lemma splitOn_append (sep : ascii) (a b : string) :
  countChar sep a = 0%nat ->
  splitOn sep (a ++ String sep b) = a :: splitOn sep b.
Proof.
  induction a as [| c a IH]; intros H.
  - cbn [append splitOn]. now rewrite Ascii.eqb_refl.
  - cbn [countChar] in H. cbn [append splitOn]. rewrite Ascii.eqb_sym.
    destruct (Ascii.eqb sep c); [discriminate H |]. now rewrite IH.
Qed.

(** A text whose lines hold no line feed splits into them. *)
Lemma splitOn_lines (first : string) (others : list string) :
  countChar lineFeed first = 0%nat ->
  Forall (fun line => countChar lineFeed line = 0%nat) others ->
  splitOn lineFeed
    (first ++ join EmptyString (map (fun line => newline ++ line) others))%string
  = first :: others.
Proof.
  revert first. induction others as [| line others IH]; intros first Hfirst Hothers.
  - cbn [map]. change (join EmptyString []) with EmptyString.
    rewrite append_empty_r. now apply splitOn_plain.
  - inversion Hothers as [| l ls Hline Hrest]; subst.
    cbn [map]. rewrite join_empty_cons.
    change ((newline ++ line)
              ++ join EmptyString (map (fun line0 => newline ++ line0) others))%string
      with (String lineFeed
              (line ++ join EmptyString (map (fun line0 => newline ++ line0) others)))%string.
    rewrite (splitOn_append lineFeed first _ Hfirst). f_equal. now apply IH.
Qed.

Section TableLines.

Context {host : Host}.

Lemma headLine_one_line (xAxisVal : PlotXAxisVal) :
  In xAxisVal plotXAxisVals ->
  countChar lineFeed (rowString (headLine xAxisVal)) = 0%nat.
Proof.
  intros Hin. cbn in Hin.
  destruct Hin as [<- | [<- | [<- | [<- | []]]]]; reflexivity.
Qed.

(** C3, as amended: when no field holds a line feed once printed, the text
    [generateCSV] returns for one of the four axis kinds, split at its line
    feeds, is the header followed by one line per point, the datasets in
    input order and the points in input order within a dataset; the line of
    a point is its [x], its receive time, its header stamp or nothing, the
    label of its dataset or nothing, and its value, with a comma between two
    fields. *)
Theorem C3_data_rows (datasets : list DataSet) (xAxisVal : PlotXAxisVal) :
  let fields (dataset : DataSet) (datum : Datum) : list string :=
    [ str (x datum);
      formatTimeRaw (receiveTime datum);
      match headerStamp datum with
      | Some stamp => formatTimeRaw stamp
      | None => EmptyString
      end;
      match label dataset with
      | Some topic => topic
      | None => EmptyString
      end;
      match value datum with
      | NumberValue n => str n
      | StringValue text => text
      end ] in
  In xAxisVal plotXAxisVals ->
  (forall dataset datum,
      In dataset datasets -> In datum (data dataset) ->
      Forall (fun field => countChar lineFeed field = 0%nat) (fields dataset datum)) ->
  exists text header : string,
    generateCSV datasets xAxisVal = Normal text
    /\ splitOn lineFeed text
       = header
           :: flat_map
                (fun dataset =>
                   map (fun datum => String.concat "," (fields dataset datum))
                       (data dataset))
                datasets
    /\ List.length (splitOn lineFeed text) = S (pointCount datasets).
Proof.
  intros fields Haxis Hfields.
  assert (Hrows : map rowString (dataRows datasets)
                  = flat_map
                      (fun dataset =>
                         map (fun datum => String.concat "," (fields dataset datum))
                             (data dataset))
                      datasets).
  { unfold dataRows. clear Hfields.
    induction datasets as [| dataset datasets IH]; [reflexivity |].
    cbn [flat_map]. rewrite map_app, IH, map_map. f_equal.
    apply map_ext. intros datum. unfold rowString, getCSVRow, fields.
    cbn [map elementString]. destruct (label dataset), (value datum); reflexivity. }
  assert (Hplain : Forall (fun line => countChar lineFeed line = 0%nat)
                          (map rowString (dataRows datasets))).
  { rewrite Hrows. apply Forall_forall. intros line Hline.
    apply in_flat_map in Hline. destruct Hline as (dataset & Hd & Hline).
    apply in_map_iff in Hline. destruct Hline as (datum & <- & Hp).
    pose proof (Hfields dataset datum Hd Hp) as Hrow.
    change (String.concat "," (fields dataset datum))
      with (join "," (fields dataset datum)).
    rewrite countChar_join. cbn [countChar Ascii.eqb Bool.eqb lineFeed].
    rewrite Nat.mul_0_r, Nat.add_0_r.
    induction Hrow as [| field rest Hfield _ IH]; [reflexivity |].
    cbn [map list_sum fold_right]. rewrite Hfield. exact IH. }
  exists (rowString (headLine xAxisVal)
            ++ join EmptyString
                 (map (fun line => newline ++ line) (map rowString (dataRows datasets))))%string.
  exists (rowString (headLine xAxisVal)).
  assert (Hsplit : splitOn lineFeed
                     (rowString (headLine xAxisVal)
                        ++ join EmptyString
                             (map (fun line => newline ++ line)
                                  (map rowString (dataRows datasets))))%string
                   = rowString (headLine xAxisVal) :: map rowString (dataRows datasets))
    by (apply splitOn_lines; [now apply headLine_one_line | exact Hplain]).
  split; [| split].
  - unfold generateCSV. rewrite combinedLines_rows.
    change (map rowString (headLine xAxisVal :: dataRows datasets))
      with (rowString (headLine xAxisVal) :: map rowString (dataRows datasets)).
    now rewrite join_cons.
  - now rewrite Hsplit, Hrows.
  - rewrite Hsplit. cbn [List.length]. now rewrite length_map, length_dataRows.
Qed.

End TableLines.

(** [C3_data_rows] on [sampleHost] and the segment from [(0, 0)] to
    [(10, 10)]. *)
Lemma C3_data_rows_witness :
  exists text header : string,
    generateCSV (segment 10 10) "index" = Normal text
    /\ splitOn lineFeed text = [header; "0,0.0,,segment,0"; "10,0.0,,segment,10"].
Proof.
  destruct (@C3_data_rows sampleHost (segment 10 10) "index")
    as (text & header & Htext & Hlines & _).
  - right. now left.
  - intros dataset datum [<- | []] [<- | [<- | []]]; repeat constructor.
  - exists text, header. split; [exact Htext |]. rewrite Hlines. reflexivity.
Defined.

(** C3 as stated fails: fields are not escaped, and a label that holds a
    line feed splits the row of each of its points.  With the one point of
    [brokenLabel] the table has two lines after the header. *)
Lemma C3_counterexample :
  pointCount brokenLabel = 1%nat
  /\ generateCSV brokenLabel "index"
     = Normal ("index,receive time,header.stamp,topic,value" ++ newline
                 ++ "0,0.0,,a" ++ newline ++ "b,0")%string
  /\ splitOn lineFeed (returned (generateCSV brokenLabel "index"))
     = ["index,receive time,header.stamp,topic,value"; "0,0.0,,a"; "b,0"]
  /\ List.length (splitOn lineFeed (returned (generateCSV brokenLabel "index")))
     <> S (pointCount brokenLabel).
Proof.
  split; [reflexivity | split; [reflexivity | split; [reflexivity |]]].
  vm_compute. discriminate.
Qed.

(** [generateCSV_lines_and_commas] on the segment from [(0, 0)] to
    [(10, 10)]: three lines. *)
Lemma generateCSV_lines_and_commas_witness :
  exists text : string,
    generateCSV (segment 10 10) "index" = Normal text
    /\ countChar lineFeed text = 2%nat
    /\ countChar comma text = 12%nat.
Proof.
  assert (Hfeed : Forall (@cellsWithout sampleHost lineFeed) (combinedLines (segment 10 10) "index")).
  { let rows := eval vm_compute in (combinedLines (segment 10 10) "index") in
    change (Forall (@cellsWithout sampleHost lineFeed) rows).
    repeat constructor. }
  assert (Hcomma : Forall (@cellsWithout sampleHost comma) (combinedLines (segment 10 10) "index")).
  { let rows := eval vm_compute in (combinedLines (segment 10 10) "index") in
    change (Forall (@cellsWithout sampleHost comma) rows).
    repeat constructor. }
  destruct (generateCSV_lines_and_commas (segment 10 10) "index" Hfeed)
    as (text & Htext & Hlines & Hcommas).
  exists text. split; [exact Htext | split; [exact Hlines | exact (Hcommas Hcomma)]].
Defined.

(** ** The order of the numbers *)

Lemma lt_orderKey (a b : number) :
  isNaN a = false -> isNaN b = false ->
  (lt a b = true <-> keyLt (orderKey a) (orderKey b)).
Proof.
  intros Ha Hb. unfold lt, SFltb.
  destruct a as [sa | sa | | sa ma ea]; try discriminate Ha;
    destruct b as [sb | sb | | sb mb eb]; try discriminate Hb;
    try destruct sa; try destruct sb; cbn [SFcompare orderKey keyLt];
    try (split; [discriminate | lia]);
    try (split; [lia | reflexivity]).
  - change (Pos.compare_cont Eq ma mb) with (Pos.compare ma mb).
    destruct (Z.compare_spec ea eb); destruct (Pos.compare_spec ma mb);
      cbn [CompOpp]; split; intros; try discriminate; try reflexivity; lia.
  - change (Pos.compare_cont Eq ma mb) with (Pos.compare ma mb).
    destruct (Z.compare_spec ea eb); destruct (Pos.compare_spec ma mb);
      split; intros; try discriminate; try reflexivity; lia.
Qed.

Lemma lt_false_orderKey (a b : number) :
  isNaN a = false -> isNaN b = false ->
  (lt a b = false <-> ~ keyLt (orderKey a) (orderKey b)).
Proof.
  intros Ha Hb. pose proof (lt_orderKey a b Ha Hb) as H.
  destruct (lt a b); split; intros; try discriminate; try reflexivity.
  - exfalso. tauto.
  - intros K. apply H in K. discriminate K.
Qed.

Lemma lt_NaN_l (b : number) : lt NaN b = false.
Proof. reflexivity. Qed.

Lemma lt_NaN_r (a : number) : lt a NaN = false.
Proof. destruct a as [s | s | | s m e]; reflexivity. Qed.

(** [a <= b] and [b <= c] give [a <= c], where [u <= v] is read as "not
    [v < u]" and [b] is a number. *)
Lemma not_lt_trans (a b c : number) :
  isNaN b = false -> lt b a = false -> lt c b = false -> lt c a = false.
Proof.
  intros Hb Hba Hcb.
  destruct (isNaN a) eqn:Ha; [destruct a; try discriminate Ha; apply lt_NaN_r |].
  destruct (isNaN c) eqn:Hc; [destruct c; try discriminate Hc; apply lt_NaN_l |].
  apply (lt_false_orderKey b a Hb Ha) in Hba.
  apply (lt_false_orderKey c b Hc Hb) in Hcb.
  apply (lt_false_orderKey c a Hc Ha).
  destruct (orderKey a) as [[? ?] ?], (orderKey b) as [[? ?] ?], (orderKey c) as [[? ?] ?].
  unfold keyLt in *. lia.
Qed.

(** [a < b] gives "not [b < a]". *)
Lemma lt_asym (a b : number) : lt a b = true -> lt b a = false.
Proof.
  intros Hab.
  destruct (isNaN a) eqn:Ha; [destruct a; try discriminate Ha; discriminate Hab |].
  destruct (isNaN b) eqn:Hb;
    [destruct b; try discriminate Hb; now rewrite lt_NaN_r in Hab |].
  apply (lt_orderKey a b Ha Hb) in Hab. apply (lt_false_orderKey b a Hb Ha).
  destruct (orderKey a) as [[? ?] ?], (orderKey b) as [[? ?] ?].
  unfold keyLt in *. lia.
Qed.

Lemma lt_irrefl (a : number) : lt a a = false.
Proof.
  destruct (lt a a) eqn:E; [| reflexivity]. now rewrite (lt_asym a a E) in E.
Qed.

(** The sign of a zero does not count in a comparison. *)
Lemma lt_zero_sign_l (a b c : number) :
  isPosZero a = true -> isNegZero b = true -> lt a c = lt b c.
Proof.
  destruct a as [[] | | |]; try discriminate; destruct b as [[] | | |]; try discriminate.
  reflexivity.
Qed.

Lemma lt_zero_sign_r (a b c : number) :
  isPosZero a = true -> isNegZero b = true -> lt c b = lt c a.
Proof.
  destruct a as [[] | | |]; try discriminate; destruct b as [[] | | |]; try discriminate.
  intros _ _. destruct c as [s | s | | s m e]; reflexivity.
Qed.

(** ** The bounding box *)

(** [Math.min] of numbers is a number, not above the starting value and not
    above any argument. *)
Lemma Math_min_from_below (args : list number) (lowest : number) :
  isNumber lowest -> Forall isNumber args ->
  isNumber (Math_min_from lowest args)
  /\ lt lowest (Math_min_from lowest args) = false
  /\ Forall (fun n => lt n (Math_min_from lowest args) = false) args.
Proof.
  revert lowest. induction args as [| n rest IH]; intros lowest Hlow Hargs.
  - cbn. repeat split; [exact Hlow | apply lt_irrefl | constructor].
  - inversion Hargs as [| n' rest' Hn Hrest]; subst. cbn [Math_min_from].
    unfold isNumber in Hn. rewrite Hn.
    destruct (isNegZero n && isPosZero lowest) eqn:Ezero.
    + apply andb_true_iff in Ezero. destruct Ezero as [Hneg Hpos].
      destruct (IH n Hn Hrest) as (Hm & Hnm & Hall).
      repeat split; [exact Hm | | constructor; assumption].
      now rewrite (lt_zero_sign_l lowest n _ Hpos Hneg).
    + destruct (lt n lowest) eqn:Elt.
      * destruct (IH n Hn Hrest) as (Hm & Hnm & Hall).
        repeat split; [exact Hm | | constructor; assumption].
        apply (not_lt_trans _ n lowest Hn Hnm). now apply lt_asym.
      * destruct (IH lowest Hlow Hrest) as (Hm & Hlm & Hall).
        repeat split; [exact Hm | exact Hlm | constructor; [| exact Hall]].
        apply (not_lt_trans _ lowest n Hlow Hlm Elt).
Qed.

(** [Math.max] of numbers is a number, not below the starting value and not
    below any argument. *)
Lemma Math_max_from_above (args : list number) (highest : number) :
  isNumber highest -> Forall isNumber args ->
  isNumber (Math_max_from highest args)
  /\ lt (Math_max_from highest args) highest = false
  /\ Forall (fun n => lt (Math_max_from highest args) n = false) args.
Proof.
  revert highest. induction args as [| n rest IH]; intros highest Hhigh Hargs.
  - cbn. repeat split; [exact Hhigh | apply lt_irrefl | constructor].
  - inversion Hargs as [| n' rest' Hn Hrest]; subst. cbn [Math_max_from].
    unfold isNumber in Hn. rewrite Hn.
    destruct (isPosZero n && isNegZero highest) eqn:Ezero.
    + apply andb_true_iff in Ezero. destruct Ezero as [Hpos Hneg].
      destruct (IH n Hn Hrest) as (Hm & Hnm & Hall).
      repeat split; [exact Hm | | constructor; assumption].
      now rewrite (lt_zero_sign_r n highest _ Hpos Hneg).
    + change (gt n highest) with (lt highest n). destruct (lt highest n) eqn:Elt.
      * destruct (IH n Hn Hrest) as (Hm & Hnm & Hall).
        repeat split; [exact Hm | | constructor; assumption].
        apply (not_lt_trans highest n _ Hn); [now apply lt_asym | exact Hnm].
      * destruct (IH highest Hhigh Hrest) as (Hm & Hlm & Hall).
        repeat split; [exact Hm | exact Hlm | constructor; [| exact Hall]].
        apply (not_lt_trans n highest _ Hhigh Elt Hlm).
Qed.

(** [Math.min] and [Math.max] of numbers return the starting value or one of
    the arguments. *)
Lemma Math_min_from_in (args : list number) (lowest : number) :
  Forall isNumber args -> In (Math_min_from lowest args) (lowest :: args).
Proof.
  revert lowest. induction args as [| n rest IH]; intros lowest Hargs; [now left |].
  inversion Hargs as [| n' rest' Hn Hrest]; subst. cbn [Math_min_from].
  unfold isNumber in Hn. rewrite Hn.
  destruct (isNegZero n && isPosZero lowest);
    [| destruct (lt n lowest)];
    match goal with
    | |- In (Math_min_from ?low rest) _ =>
        destruct (IH low Hrest) as [E | E]; [rewrite <- E | right; right; exact E]
    end; cbn; tauto.
Qed.

Lemma Math_max_from_in (args : list number) (highest : number) :
  Forall isNumber args -> In (Math_max_from highest args) (highest :: args).
Proof.
  revert highest. induction args as [| n rest IH]; intros highest Hargs; [now left |].
  inversion Hargs as [| n' rest' Hn Hrest]; subst. cbn [Math_max_from].
  unfold isNumber in Hn. rewrite Hn.
  destruct (isPosZero n && isNegZero highest);
    [| destruct (gt n highest)];
    match goal with
    | |- In (Math_max_from ?high rest) _ =>
        destruct (IH high Hrest) as [E | E]; [rewrite <- E | right; right; exact E]
    end; cbn; tauto.
Qed.

Lemma not_below_Infinity (n : number) :
  isNumber n -> lt n Infinity = false -> n = Infinity.
Proof.
  destruct n as [s | [] | | s m e]; intros Hn Hlt;
    try discriminate Hn; try discriminate Hlt; reflexivity.
Qed.

Lemma not_above_negInfinity (n : number) :
  isNumber n -> lt negInfinity n = false -> n = negInfinity.
Proof.
  destruct n as [s | [] | | s m e]; intros Hn Hlt;
    try discriminate Hn; try discriminate Hlt; reflexivity.
Qed.

(** The fold of [Math.min] over lists of numbers: a number, not above the
    starting value nor above any element, and the starting value or one of
    the elements. *)
Lemma minOver_below (lists : list (list number)) (lowest : number) :
  isNumber lowest -> Forall (Forall isNumber) lists ->
  isNumber (minOver lists lowest)
  /\ lt lowest (minOver lists lowest) = false
  /\ Forall (Forall (fun n => lt n (minOver lists lowest) = false)) lists
  /\ In (minOver lists lowest) (lowest :: List.concat lists).
Proof.
  revert lowest. induction lists as [| l lists IH]; intros lowest Hlow Hlists.
  - cbn. repeat split; [exact Hlow | apply lt_irrefl | constructor | now left].
  - inversion Hlists as [| l' lists' Hl Hrest]; subst.
    cbn [minOver fold_left]. fold (minOver lists (Math_min (lowest :: l))).
    assert (Hargs : Forall isNumber (lowest :: l)) by (constructor; assumption).
    destruct (Math_min_from_below (lowest :: l) Infinity eq_refl Hargs)
      as (Hnew & _ & Hbelow).
    pose proof (Math_min_from_in (lowest :: l) Infinity Hargs) as Hin.
    fold (Math_min (lowest :: l)) in Hnew, Hbelow, Hin.
    set (new := Math_min (lowest :: l)) in *.
    destruct (IH new Hnew Hrest) as (Hres & Hnewres & Hall & Hresin).
    inversion Hbelow as [| n0 l0 Hlownew Hlnew]; subst.
    repeat split.
    + exact Hres.
    + exact (not_lt_trans _ new lowest Hnew Hnewres Hlownew).
    + constructor; [| exact Hall].
      eapply Forall_impl; [| exact Hlnew]. intros n Hn. cbv beta in Hn.
      exact (not_lt_trans _ new n Hnew Hnewres Hn).
    + cbn [List.concat]. destruct Hresin as [E | E].
      * rewrite <- E. destruct Hin as [E' | [E' | E']].
        -- left. rewrite <- E' in Hlownew.
           rewrite (not_below_Infinity lowest Hlow Hlownew). exact E'.
        -- left. exact E'.
        -- right. apply in_or_app. now left.
      * right. apply in_or_app. now right.
Qed.

(** The fold of [Math.max] over lists of numbers: a number, not below the
    starting value nor below any element, and the starting value or one of
    the elements. *)
Lemma maxOver_above (lists : list (list number)) (highest : number) :
  isNumber highest -> Forall (Forall isNumber) lists ->
  isNumber (maxOver lists highest)
  /\ lt (maxOver lists highest) highest = false
  /\ Forall (Forall (fun n => lt (maxOver lists highest) n = false)) lists
  /\ In (maxOver lists highest) (highest :: List.concat lists).
Proof.
  revert highest. induction lists as [| l lists IH]; intros highest Hhigh Hlists.
  - cbn. repeat split; [exact Hhigh | apply lt_irrefl | constructor | now left].
  - inversion Hlists as [| l' lists' Hl Hrest]; subst.
    cbn [maxOver fold_left]. fold (maxOver lists (Math_max (highest :: l))).
    assert (Hargs : Forall isNumber (highest :: l)) by (constructor; assumption).
    destruct (Math_max_from_above (highest :: l) negInfinity eq_refl Hargs)
      as (Hnew & _ & Habove).
    pose proof (Math_max_from_in (highest :: l) negInfinity Hargs) as Hin.
    fold (Math_max (highest :: l)) in Hnew, Habove, Hin.
    set (new := Math_max (highest :: l)) in *.
    destruct (IH new Hnew Hrest) as (Hres & Hresnew & Hall & Hresin).
    inversion Habove as [| n0 l0 Hnewhigh Hnewl]; subst.
    repeat split.
    + exact Hres.
    + exact (not_lt_trans highest new _ Hnew Hnewhigh Hresnew).
    + constructor; [| exact Hall].
      eapply Forall_impl; [| exact Hnewl]. intros n Hn. cbv beta in Hn.
      exact (not_lt_trans n new _ Hnew Hn Hresnew).
    + cbn [List.concat]. destruct Hresin as [E | E].
      * rewrite <- E. destruct Hin as [E' | [E' | E']].
        -- left. rewrite <- E' in Hnewhigh.
           rewrite (not_above_negInfinity highest Hhigh Hnewhigh). exact E'.
        -- left. exact E'.
        -- right. apply in_or_app. now left.
      * right. apply in_or_app. now right.
Qed.

Section BoundingBox.

Context {host : Host}.

Lemma numeric_xLists (datasets : list DataSet) :
  Forall numericData datasets -> Forall (Forall isNumber) (xLists datasets).
Proof.
  intros H. unfold xLists. apply Forall_map. eapply Forall_impl; [| exact H].
  intros dataset Hd. apply Forall_map. eapply Forall_impl; [| exact Hd].
  intros datum [Hx _]. exact Hx.
Qed.

Lemma numeric_yLists (datasets : list DataSet) :
  Forall numericData datasets -> Forall (Forall isNumber) (yLists datasets).
Proof.
  intros H. unfold yLists. apply Forall_map. eapply Forall_impl; [| exact H].
  intros dataset Hd. apply Forall_map. eapply Forall_impl; [| exact Hd].
  intros datum [_ Hy]. exact Hy.
Qed.

Lemma in_lists {A : Type} (f : Datum -> A) (P : A -> Prop) (datasets : list DataSet)
    (dataset : DataSet) (datum : Datum) :
  Forall (Forall P) (map (fun dataset => map f (data dataset)) datasets) ->
  In dataset datasets -> In datum (data dataset) -> P (f datum).
Proof.
  intros Hall Hd Hp.
  rewrite Forall_map in Hall.
  pose proof (proj1 (Forall_forall _ _) Hall dataset Hd) as Hl. cbv beta in Hl.
  rewrite Forall_map in Hl. exact (proj1 (Forall_forall _ _) Hl datum Hp).
Qed.

Lemma point_in_lists {A : Type} (f : Datum -> A) (datasets : list DataSet)
    (dataset : DataSet) (datum : Datum) :
  In dataset datasets -> In datum (data dataset) ->
  In (f datum) (List.concat (map (fun dataset => map f (data dataset)) datasets)).
Proof.
  intros Hd Hp. apply in_concat. exists (map f (data dataset)). split.
  - apply in_map_iff. now exists dataset.
  - now apply in_map.
Qed.

(** X5: when no dataset is beyond the spread limit and no coordinate is
    [NaN], the first loop of [generateSVG] ends with the bounding box of the
    points: no point has an [x] below [xMin] or above [xMax], nor a [y] below
    [yMin] or above [yMax], and as soon as there is a point each bound is the
    coordinate of a point. *)
Theorem dataRange_is_bounding_box (datasets : list DataSet) :
  withinSpreadLimit datasets ->
  Forall numericData datasets ->
  exists r : Range,
    dataRange datasets = Normal r
    /\ (forall dataset datum,
           In dataset datasets -> In datum (data dataset) ->
           lt (x datum) (xMin r) = false /\ lt (xMax r) (x datum) = false
           /\ lt (y datum) (yMin r) = false /\ lt (yMax r) (y datum) = false)
    /\ (forall dataset datum,
           In dataset datasets -> In datum (data dataset) ->
           In (xMin r) (List.concat (xLists datasets))
           /\ In (xMax r) (List.concat (xLists datasets))
           /\ In (yMin r) (List.concat (yLists datasets))
           /\ In (yMax r) (List.concat (yLists datasets))).
Proof.
  intros Hwithin Hdata. exists (boundingBox datasets).
  split; [now apply dataRange_returns |].
  unfold boundingBox. cbn [xMin xMax yMin yMax].
  destruct (minOver_below (xLists datasets) Infinity eq_refl (numeric_xLists _ Hdata))
    as (_ & _ & Hxmin & Hxminin).
  destruct (maxOver_above (xLists datasets) negInfinity eq_refl (numeric_xLists _ Hdata))
    as (_ & _ & Hxmax & Hxmaxin).
  destruct (minOver_below (yLists datasets) Infinity eq_refl (numeric_yLists _ Hdata))
    as (_ & _ & Hymin & Hyminin).
  destruct (maxOver_above (yLists datasets) negInfinity eq_refl (numeric_yLists _ Hdata))
    as (_ & _ & Hymax & Hymaxin).
  assert (Hbounds : forall dataset datum,
             In dataset datasets -> In datum (data dataset) ->
             lt (x datum) (minOver (xLists datasets) Infinity) = false
             /\ lt (maxOver (xLists datasets) negInfinity) (x datum) = false
             /\ lt (y datum) (minOver (yLists datasets) Infinity) = false
             /\ lt (maxOver (yLists datasets) negInfinity) (y datum) = false).
  { intros dataset datum Hd Hp. repeat split.
    - exact (in_lists x _ datasets dataset datum Hxmin Hd Hp).
    - exact (in_lists x _ datasets dataset datum Hxmax Hd Hp).
    - exact (in_lists y _ datasets dataset datum Hymin Hd Hp).
    - exact (in_lists y _ datasets dataset datum Hymax Hd Hp). }
  split; [exact Hbounds |].
  intros dataset datum Hd Hp.
  destruct (Hbounds dataset datum Hd Hp) as (Bxmin & Bxmax & Bymin & Bymax).
  pose proof (in_lists x isNumber datasets dataset datum (numeric_xLists _ Hdata) Hd Hp)
    as Nx.
  pose proof (in_lists y isNumber datasets dataset datum (numeric_yLists _ Hdata) Hd Hp)
    as Ny.
  pose proof (point_in_lists x datasets dataset datum Hd Hp) as Px.
  pose proof (point_in_lists y datasets dataset datum Hd Hp) as Py.
  repeat split.
  - destruct Hxminin as [E | E]; [| exact E]. rewrite <- E in *.
    now rewrite <- (not_below_Infinity (x datum) Nx Bxmin).
  - destruct Hxmaxin as [E | E]; [| exact E]. rewrite <- E in *.
    now rewrite <- (not_above_negInfinity (x datum) Nx Bxmax).
  - destruct Hyminin as [E | E]; [| exact E]. rewrite <- E in *.
    now rewrite <- (not_below_Infinity (y datum) Ny Bymin).
  - destruct Hymaxin as [E | E]; [| exact E]. rewrite <- E in *.
    now rewrite <- (not_above_negInfinity (y datum) Ny Bymax).
Qed.

End BoundingBox.

(** [dataRange_is_bounding_box] on the segment from [(0, 0)] to [(10, 10)]
    and its second point. *)
Lemma dataRange_is_bounding_box_witness :
  exists r : Range,
    dataRange (segment 10 10) = Normal r
    /\ lt (ofZ 10) (xMin r) = false /\ lt (xMax r) (ofZ 10) = false
    /\ lt (ofZ 10) (yMin r) = false /\ lt (yMax r) (ofZ 10) = false.
Proof.
  assert (Hwithin : withinSpreadLimit (segment 10 10))
    by (repeat constructor; vm_compute; discriminate).
  assert (Hdata : Forall numericData (segment 10 10)) by (repeat constructor).
  destruct (dataRange_is_bounding_box (segment 10 10) Hwithin Hdata)
    as (r & Hr & Hbounds & _).
  exists r. split; [exact Hr |].
  apply (Hbounds {| label := Some "segment"; data := [sampleDatum 0 0; sampleDatum 10 10] |}
                 (sampleDatum 10 10)).
  - now left.
  - right. now left.
Defined.

(** ** A coordinate that is [NaN] *)

Lemma Math_min_from_NaN (args : list number) (lowest n : number) :
  In n args -> isNaN n = true -> Math_min_from lowest args = NaN.
Proof.
  revert lowest. induction args as [| a rest IH]; intros lowest Hin Hn; [contradiction |].
  cbn [Math_min_from]. destruct (isNaN a) eqn:Ea; [reflexivity |].
  destruct Hin as [-> | Hin]; [congruence |].
  destruct (isNegZero a && isPosZero lowest); [| destruct (lt a lowest)];
    now apply IH.
Qed.

Lemma Math_max_from_NaN (args : list number) (highest n : number) :
  In n args -> isNaN n = true -> Math_max_from highest args = NaN.
Proof.
  revert highest. induction args as [| a rest IH]; intros highest Hin Hn; [contradiction |].
  cbn [Math_max_from]. destruct (isNaN a) eqn:Ea; [reflexivity |].
  destruct Hin as [-> | Hin]; [congruence |].
  destruct (isPosZero a && isNegZero highest); [| destruct (gt a highest)];
    now apply IH.
Qed.

(** Once a bound is [NaN] it stays [NaN]; a [NaN] in a list makes it [NaN]. *)
Lemma minOver_NaN_start (lists : list (list number)) : minOver lists NaN = NaN.
Proof. induction lists as [| l lists IH]; [reflexivity | exact IH]. Qed.

Lemma maxOver_NaN_start (lists : list (list number)) : maxOver lists NaN = NaN.
Proof. induction lists as [| l lists IH]; [reflexivity | exact IH]. Qed.

Lemma minOver_NaN (lists : list (list number)) (l : list number) (lowest n : number) :
  In l lists -> In n l -> isNaN n = true -> minOver lists lowest = NaN.
Proof.
  revert lowest. induction lists as [| l' lists IH]; intros lowest Hl Hn HNaN;
    [contradiction |].
  cbn [minOver fold_left]. destruct Hl as [-> | Hl].
  - unfold Math_min. rewrite (Math_min_from_NaN (lowest :: l) Infinity n);
      [apply minOver_NaN_start | now right | exact HNaN].
  - now apply IH.
Qed.

Lemma maxOver_NaN (lists : list (list number)) (l : list number) (highest n : number) :
  In l lists -> In n l -> isNaN n = true -> maxOver lists highest = NaN.
Proof.
  revert highest. induction lists as [| l' lists IH]; intros highest Hl Hn HNaN;
    [contradiction |].
  cbn [maxOver fold_left]. destruct Hl as [-> | Hl].
  - unfold Math_max. rewrite (Math_max_from_NaN (highest :: l) negInfinity n);
      [apply maxOver_NaN_start | now right | exact HNaN].
  - now apply IH.
Qed.

Lemma sub_NaN_r (a : number) : sub a NaN = NaN.
Proof. destruct a as [s | s | | s m e]; reflexivity. Qed.

Lemma pathX_NaN (scale a : number) : pathX NaN scale a = NaN.
Proof. unfold pathX. cbn [plus times minus binary64]. now rewrite sub_NaN_r. Qed.

Lemma pathY_NaN (scale a : number) : pathY NaN scale a = NaN.
Proof. unfold pathY. cbn [plus times minus binary64]. now rewrite sub_NaN_r. Qed.

Section NaNCoordinate.

Context {host : Host}.
Local Open Scope arith_scope.

Lemma tickLabel_NaN (digits : Z) :
  (0 <= digits <= 100)%Z ->
  Forall (fun i => tickLabel NaN NaN digits i = "NaN") tickIndices.
Proof.
  intros Hdigits.
  assert (Hrange : ((digits <? 0) || (100 <? digits))%Z = false).
  { apply orb_false_iff. split; apply Z.ltb_ge; lia. }
  apply Forall_forall. intros i _. unfold tickLabel, toFixed. rewrite Hrange.
  reflexivity.
Qed.

(** X6: within the spread limit, one point whose [x] is [NaN], in any
    dataset, makes [xMin] and [xMax] [NaN]; [generateSVG] throws nothing, and
    in the document it returns the eleven ticks of the x axis are labelled
    "NaN" and every point kept of every dataset is written with the x
    coordinate "NaN", before the comma and its y coordinate
    [svgHeight - margin - (y - yMin) * yScale].  The same holds for a [y]
    that is [NaN], with [yMin], [yMax], the ticks of the y axis and the y
    coordinates, after the x coordinate
    [margin + (x - xMin) * xScale] and the comma. *)
Theorem NaN_coordinate_spreads (datasets : list DataSet) (dataset : DataSet)
    (datum : Datum) :
  withinSpreadLimit datasets ->
  In dataset datasets -> In datum (data dataset) ->
  exists r : Range,
    dataRange datasets = Normal r
    /\ (isNaN (x datum) = true ->
        xMin r = NaN /\ xMax r = NaN
        /\ generateSVG datasets
           = Normal
               (svgOpen
                  ++ xAxis
                  ++ join EmptyString
                       (map (fun i => xTickMarkup (decimalOfZ (40 + 42 * i)) "NaN")
                            tickIndices)
                  ++ yAxis
                  ++ join EmptyString (yTickList r)
                  ++ join EmptyString
                       (map (fun dataset =>
                               pathElement
                                 (join " "
                                    (map (fun point =>
                                            "NaN," ++
                                            str (svgHeight - margin
                                                 - (y point - yMin r)
                                                   * ((svgHeight - margin * lit 2)
                                                      / (yMax r - yMin r))))
                                         (resampledData dataset))))
                            datasets)
                  ++ svgClose)%string)
    /\ (isNaN (y datum) = true ->
        yMin r = NaN /\ yMax r = NaN
        /\ generateSVG datasets
           = Normal
               (svgOpen
                  ++ xAxis
                  ++ join EmptyString (xTickList r)
                  ++ yAxis
                  ++ join EmptyString
                       (map (fun i => yTickMarkup (decimalOfZ (460 - 42 * i)) "NaN")
                            tickIndices)
                  ++ join EmptyString
                       (map (fun dataset =>
                               pathElement
                                 (join " "
                                    (map (fun point =>
                                            str (margin
                                                 + (x point - xMin r)
                                                   * ((svgWidth - margin * lit 2)
                                                      / (xMax r - xMin r)))
                                            ++ ",NaN")
                                         (resampledData dataset))))
                            datasets)
                  ++ svgClose)%string).
Proof.
  intros Hwithin Hd Hp. exists (boundingBox datasets). set (r := boundingBox datasets).
  split; [now apply dataRange_returns |].
  assert (Hxl : In (map x (data dataset)) (xLists datasets))
    by (apply in_map_iff; now exists dataset).
  assert (Hyl : In (map y (data dataset)) (yLists datasets))
    by (apply in_map_iff; now exists dataset).
  split; intros HNaN.
  - assert (Hmin : xMin r = NaN).
    { unfold r, boundingBox. cbn [xMin].
      apply (minOver_NaN _ (map x (data dataset)) _ (x datum) Hxl); [| exact HNaN].
      now apply in_map. }
    assert (Hmax : xMax r = NaN).
    { unfold r, boundingBox. cbn [xMax].
      apply (maxOver_NaN _ (map x (data dataset)) _ (x datum) Hxl); [| exact HNaN].
      now apply in_map. }
    split; [exact Hmin | split; [exact Hmax |]].
    rewrite (generateSVG_returns datasets Hwithin). fold r.
    unfold frame at 1. unfold xTickList. rewrite countTo_0_10.
    rewrite (map_ext_in
               (fun i => xTick (xPos (lit i)) (tickLabel (xMin r) (xMax r) 1 i))
               (fun i => xTickMarkup (decimalOfZ (40 + 42 * i)) "NaN")).
    2:{ intros i Hi. rewrite Hmin, Hmax.
        rewrite (proj1 (Forall_forall _ _) (tickLabel_NaN 1 ltac:(lia)) i Hi).
        apply (proj1 (Forall_forall _ _) xTick_reads i Hi). }
    unfold pathElements.
    rewrite (map_ext
               (fun dataset =>
                  pathElement
                    (pathData r (xScale (xMin r) (xMax r)) (yScale (yMin r) (yMax r))
                       dataset))
               (fun dataset =>
                  pathElement
                    (join " "
                       (map (fun point =>
                               "NaN," ++
                               str (svgHeight - margin
                                    - (y point - yMin r)
                                      * ((svgHeight - margin * lit 2)
                                         / (yMax r - yMin r))))%string
                            (resampledData dataset))))).
    2:{ intros d. unfold pathData. do 2 f_equal. apply map_ext. intros point.
        unfold pathPoint. rewrite Hmin, pathX_NaN. reflexivity. }
    now rewrite !append_assoc.
  - assert (Hmin : yMin r = NaN).
    { unfold r, boundingBox. cbn [yMin].
      apply (minOver_NaN _ (map y (data dataset)) _ (y datum) Hyl); [| exact HNaN].
      now apply in_map. }
    assert (Hmax : yMax r = NaN).
    { unfold r, boundingBox. cbn [yMax].
      apply (maxOver_NaN _ (map y (data dataset)) _ (y datum) Hyl); [| exact HNaN].
      now apply in_map. }
    split; [exact Hmin | split; [exact Hmax |]].
    rewrite (generateSVG_returns datasets Hwithin). fold r.
    unfold frame at 1. unfold yTickList. rewrite countTo_0_10.
    rewrite (map_ext_in
               (fun i => yTick (yPos (lit i)) (tickLabel (yMin r) (yMax r) 2 i))
               (fun i => yTickMarkup (decimalOfZ (460 - 42 * i)) "NaN")).
    2:{ intros i Hi. rewrite Hmin, Hmax.
        rewrite (proj1 (Forall_forall _ _) (tickLabel_NaN 2 ltac:(lia)) i Hi).
        apply (proj1 (Forall_forall _ _) yTick_reads i Hi). }
    unfold pathElements.
    rewrite (map_ext
               (fun dataset =>
                  pathElement
                    (pathData r (xScale (xMin r) (xMax r)) (yScale (yMin r) (yMax r))
                       dataset))
               (fun dataset =>
                  pathElement
                    (join " "
                       (map (fun point =>
                               str (margin
                                    + (x point - xMin r)
                                      * ((svgWidth - margin * lit 2)
                                         / (xMax r - xMin r)))
                               ++ ",NaN")%string
                            (resampledData dataset))))).
    2:{ intros d. unfold pathData. do 2 f_equal. apply map_ext. intros point.
        unfold pathPoint. rewrite Hmin, pathY_NaN. reflexivity. }
    now rewrite !append_assoc.
Qed.

End NaNCoordinate.

(** [NaN_coordinate_spreads] on [segmentAndNaN]: the points of the segment
    are written with the x coordinate "NaN" too. *)
Lemma NaN_coordinate_spreads_witness :
  exists (r : Range) (document : string),
    dataRange segmentAndNaN = Normal r
    /\ xMin r = NaN /\ xMax r = NaN
    /\ generateSVG segmentAndNaN = Normal document.
Proof.
  assert (Hwithin : withinSpreadLimit segmentAndNaN)
    by (repeat constructor; vm_compute; discriminate).
  destruct (NaN_coordinate_spreads segmentAndNaN
              {| label := Some "gap";
                 data := [@Build_Datum sampleHost NaN (ofZ 5) (NumberValue (ofZ 5))
                                       (0%Z, 0%Z) None] |}
              (@Build_Datum sampleHost NaN (ofZ 5) (NumberValue (ofZ 5)) (0%Z, 0%Z) None)
              Hwithin)
    as (r & Hr & Hx & _); [right; now left | now left |].
  destruct (Hx eq_refl) as (Hmin & Hmax & Hdoc).
  exists r. eexists.
  split; [exact Hr | split; [exact Hmin | split; [exact Hmax | exact Hdoc]]].
Defined.

(** ** The markup of every document *)

Lemma plainText_append (a b : string) :
  plainText (a ++ b) = plainText a && plainText b.
Proof.
  induction a as [| c a IH]; [reflexivity |]. cbn [append plainText].
  now rewrite IH, andb_assoc.
Qed.

Lemma plainText_substring (s : string) (n m : nat) :
  plainText s = true -> plainText (substring n m s) = true.
Proof.
  revert n m. induction s as [| c s IH]; intros n m Hs.
  - destruct n, m; reflexivity.
  - cbn [plainText] in Hs. apply andb_true_iff in Hs. destruct Hs as [Hc Hs].
    destruct n as [| n]; [destruct m as [| m] |]; cbn [substring plainText];
      [reflexivity | rewrite Hc; now apply IH | now apply IH].
Qed.

Lemma plainText_zeros (n : nat) : plainText (zeros n) = true.
Proof. induction n as [| n IH]; [reflexivity | exact IH]. Qed.

Lemma plainText_string_of_uint (d : Decimal.uint) :
  plainText (NilEmpty.string_of_uint d) = true.
Proof. induction d; cbn; try reflexivity; assumption. Qed.

Lemma plainText_decimalOfZ (z : Z) : plainText (decimalOfZ z) = true.
Proof.
  unfold decimalOfZ, NilZero.string_of_int, NilZero.string_of_uint.
  destruct (Z.to_int z) as [d | d]; destruct d;
    try reflexivity; apply plainText_string_of_uint.
Qed.

Lemma plainText_fixedDigits (n : Z) (f : nat) : plainText (fixedDigits n f) = true.
Proof.
  unfold fixedDigits. destruct f as [| f]; [apply plainText_decimalOfZ |].
  assert (H : plainText (zeros (S (S f) - String.length (decimalOfZ n)) ++ decimalOfZ n)
              = true)
    by (now rewrite plainText_append, plainText_zeros, plainText_decimalOfZ).
  rewrite !plainText_append, !(plainText_substring _ _ _ H). reflexivity.
Qed.

Lemma plainText_join (sep : string) (parts : list string) :
  plainText sep = true -> Forall (fun part => plainText part = true) parts ->
  plainText (join sep parts) = true.
Proof.
  intros Hsep Hparts. induction Hparts as [| part parts Hpart Hparts IH]; [reflexivity |].
  destruct parts as [| part' parts]; [exact Hpart |].
  change (join sep (part :: part' :: parts))
    with (part ++ sep ++ join sep (part' :: parts))%string.
  now rewrite !plainText_append, Hpart, Hsep, IH.
Qed.

(** Plain text leaves the scanner where it is, between tags and inside an
    attribute value. *)
Lemma scan_plain_text (s : string) (stack : list string) :
  plainText s = true ->
  scan {| openTags := stack; mode := InText |} s
  = Some {| openTags := stack; mode := InText |}.
Proof.
  induction s as [| c s IH]; intros Hs; [reflexivity |].
  cbn [plainText] in Hs. apply andb_true_iff in Hs. destruct Hs as [Hc Hs].
  unfold plainChar in Hc. apply negb_true_iff in Hc.
  apply orb_false_iff in Hc. destruct Hc as [Hc _].
  apply orb_false_iff in Hc. destruct Hc as [Hlt Hgt].
  cbn [scan]. unfold scanChar. cbn [mode openTags]. rewrite Hlt, Hgt. now apply IH.
Qed.

Lemma scan_plain_value (s : string) (stack : list string) (name : string) :
  plainText s = true ->
  scan {| openTags := stack; mode := InValue name |} s
  = Some {| openTags := stack; mode := InValue name |}.
Proof.
  induction s as [| c s IH]; intros Hs; [reflexivity |].
  cbn [plainText] in Hs. apply andb_true_iff in Hs. destruct Hs as [Hc Hs].
  unfold plainChar in Hc. apply negb_true_iff in Hc.
  apply orb_false_iff in Hc. destruct Hc as [Hc Hq].
  apply orb_false_iff in Hc. destruct Hc as [Hlt Hgt].
  cbn [scan]. unfold scanChar. cbn [mode openTags]. rewrite Hq, Hlt. now apply IH.
Qed.

(** Elements that each leave the scanner inside [svg] do so together. *)
Lemma scan_elements (elements : list string) :
  Forall (fun element => scan insideSvg element = Some insideSvg) elements ->
  scan insideSvg (join EmptyString elements) = Some insideSvg.
Proof.
  intros H. induction H as [| element elements He Hes IH]; [reflexivity |].
  now rewrite join_empty_cons, scan_app, He.
Qed.

Section EveryDocument.

Context {host : Host}.

(** The runtime's digits hold no bracket and no double quote. *)
Hypothesis plainDigits : forall n : number, plainText (shortestDecimal n) = true.

Lemma plainText_str (n : number) : plainText (str n) = true.
Proof.
  unfold str, toString. destruct n as [s | [] | | s m e]; try reflexivity.
  destruct (toInteger (S754_finite s m e)) as [z |]; [| apply plainDigits].
  destruct (Z.abs z <? 2 ^ 53)%Z; [apply plainText_decimalOfZ | apply plainDigits].
Qed.

Lemma plainText_tickLabel (lo hi : number) (digits i : Z) :
  plainText (tickLabel lo hi digits i) = true.
Proof.
  unfold tickLabel, toFixed.
  destruct ((digits <? 0)%Z || (100 <? digits)%Z); [reflexivity |].
  destruct (tickValue lo hi (lit i)) as [s | s | | s m e] eqn:E; cbn [returned].
  - apply plainText_fixedDigits.
  - apply (plainText_str (S754_infinity s)).
  - reflexivity.
  - destruct (atLeast1e21 m e); cbn [returned];
      [apply (plainText_str (S754_finite s m e)) |].
    rewrite plainText_append, plainText_fixedDigits. now destruct s.
Qed.

Lemma plainText_pathData (r : Range) (sx sy : number) (dataset : DataSet) :
  plainText (pathData r sx sy dataset) = true.
Proof.
  unfold pathData. apply plainText_join; [reflexivity |].
  apply Forall_map. apply Forall_forall. intros datum _. unfold pathPoint.
  now rewrite !plainText_append, !plainText_str.
Qed.


(** One step of the scanner over a concatenation: a printed number inside
    an attribute value or a plain text between tags is skipped, any other
    first part is closed text and is scanned by computation. *)
Ltac scan_part :=
  rewrite scan_app;
  first
    [ rewrite scan_plain_value by (first [apply plainText_str | assumption])
    | rewrite scan_plain_text by assumption
    | match goal with
      | |- context [scan ?st ?part] =>
          let result := eval vm_compute in (scan st part) in
          replace (scan st part) with result by (vm_compute; reflexivity)
      end ];
  cbv beta iota.

Lemma scan_xTick (xPos : number) (label : string) :
  plainText label = true -> scan insideSvg (xTick xPos label) = Some insideSvg.
Proof.
  intros Hlabel. unfold xTick. do 14 scan_part. vm_compute. reflexivity.
Qed.

Lemma scan_yTick (yPos : number) (label : string) :
  plainText label = true -> scan insideSvg (yTick yPos label) = Some insideSvg.
Proof.
  intros Hlabel. unfold yTick. do 14 scan_part. vm_compute. reflexivity.
Qed.

Lemma scan_pathElement (pathData : string) :
  plainText pathData = true ->
  scan insideSvg (pathElement pathData) = Some insideSvg.
Proof.
  intros Hdata. unfold pathElement. do 2 scan_part. vm_compute. reflexivity.
Qed.


Lemma scan_svgOpen_xAxis :
  scan {| openTags := []; mode := InText |} (svgOpen ++ xAxis) = Some insideSvg.
Proof. vm_compute. reflexivity. Qed.

Lemma scan_yAxis : scan insideSvg yAxis = Some insideSvg.
Proof. vm_compute. reflexivity. Qed.

Lemma scan_frame (r : Range) :
  scan {| openTags := []; mode := InText |} (frame r) = Some insideSvg.
Proof.
  unfold frame. rewrite <- append_assoc, scan_app, scan_svgOpen_xAxis.
  rewrite scan_app, scan_elements.
  - rewrite scan_app, scan_yAxis. apply scan_elements.
    apply Forall_map, Forall_forall. intros i _.
    apply scan_yTick, plainText_tickLabel.
  - apply Forall_map, Forall_forall. intros i _.
    apply scan_xTick, plainText_tickLabel.
Qed.

(** X7: when the digits the runtime prints hold no bracket and no double
    quote and no dataset is beyond the spread limit, [generateSVG] throws
    nothing and the markup of the document it returns is well nested,
    whatever the coordinates: every tag is closed in order and the text ends
    outside markup.  With a dataset beyond the limit it throws a
    [RangeError]. *)
Theorem generateSVG_well_nested (datasets : list DataSet) :
  (withinSpreadLimit datasets ->
   exists document : string,
     generateSVG datasets = Normal document /\ wellNested document = true)
  /\ (~ withinSpreadLimit datasets -> generateSVG datasets = Throw "RangeError").
Proof.
  split; [| apply generateSVG_throws].
  intros Hwithin. eexists. split; [now apply generateSVG_returns |].
  unfold wellNested. rewrite scan_app, scan_frame, scan_app, scan_elements.
  - rewrite scan_svgClose. reflexivity.
  - unfold pathElements. apply Forall_map, Forall_forall. intros dataset _.
    apply scan_pathElement, plainText_pathData.
Qed.

End EveryDocument.

(** [generateSVG_well_nested] on [sampleHost], whose digits are "#", and the
    segment from [(0, 0)] to [(39, 39)]. *)
Lemma generateSVG_well_nested_witness :
  exists document : string,
    generateSVG (segment 39 39) = Normal document /\ wellNested document = true.
Proof.
  apply (@generateSVG_well_nested sampleHost).
  - intros n. reflexivity.
  - repeat constructor; vm_compute; discriminate.
Defined.

(** ** What the two encoders read *)

Lemma filterFrom_map {A B : Type} (f : A -> B) (p : nat -> bool) (l : list A) (i : nat) :
  filterFrom (fun _ k => p k) i (map f l) = map f (filterFrom (fun _ k => p k) i l).
Proof.
  revert i. induction l as [| a l IH]; intros i; [reflexivity |].
  cbn [map filterFrom]. destruct (p i); cbn [map]; now rewrite IH.
Qed.

Section EncoderInputs.

Context {host : Host}.

Lemma xLists_coordinates (datasets : list DataSet) :
  xLists datasets = map (map fst) (map coordinates datasets).
Proof.
  unfold xLists, coordinates. rewrite map_map. apply map_ext. intros dataset.
  now rewrite map_map.
Qed.

Lemma yLists_coordinates (datasets : list DataSet) :
  yLists datasets = map (map snd) (map coordinates datasets).
Proof.
  unfold yLists, coordinates. rewrite map_map. apply map_ext. intros dataset.
  now rewrite map_map.
Qed.

Lemma pathData_coordinates (r : Range) (sx sy : number) (dataset : DataSet) :
  pathData r sx sy dataset
  = join " "
      (map (fun c => (str (pathX (xMin r) sx (fst c)) ++ ","
                        ++ str (pathY (yMin r) sy (snd c)))%string)
           (filter_index
              (fun _ index =>
                 onStride (resampleFactor (List.length (coordinates dataset))) index)
              (coordinates dataset))).
Proof.
  unfold pathData, resampledData, filter_index, coordinates.
  rewrite length_map, (filterFrom_map _ (onStride _)), map_map. reflexivity.
Qed.

Lemma pathElements_coordinates (r : Range) (datasets : list DataSet) :
  let sx := xScale (xMin r) (xMax r) in
  let sy := yScale (yMin r) (yMax r) in
  pathElements r datasets
  = map (fun points =>
           pathElement
             (join " "
                (map (fun c => (str (pathX (xMin r) sx (fst c)) ++ ","
                                  ++ str (pathY (yMin r) sy (snd c)))%string)
                     (filter_index
                        (fun _ index =>
                           onStride (resampleFactor (List.length points)) index)
                        points))))
        (map coordinates datasets).
Proof.
  intros sx sy. unfold pathElements. rewrite map_map. apply map_ext.
  intros dataset. now rewrite pathData_coordinates.
Qed.

Lemma withinSpreadLimit_coordinates (datasets : list DataSet) :
  withinSpreadLimit datasets
  <-> Forall (fun points : list (number * number) =>
                (N.of_nat (List.length points) <= spreadLimit)%N)
             (map coordinates datasets).
Proof.
  unfold withinSpreadLimit. rewrite Forall_map.
  split; intros H; (eapply Forall_impl; [| exact H]); intros dataset Hd;
    unfold coordinates in *; now rewrite length_map in *.
Qed.

(** X8: the document [generateSVG] returns depends on the coordinates of the
    points only: two lists of datasets with the same coordinates, dataset by
    dataset, give the same document, whatever their labels, values and
    timestamps. *)
Theorem generateSVG_reads_coordinates_only (first second : list DataSet) :
  map coordinates first = map coordinates second ->
  generateSVG first = generateSVG second.
Proof.
  intros Hsame.
  assert (Hlimit : withinSpreadLimit first <-> withinSpreadLimit second)
    by (now rewrite !withinSpreadLimit_coordinates, Hsame).
  destruct (withinSpreadLimit_dec first) as [Hfirst | Hfirst].
  - assert (Hsecond : withinSpreadLimit second) by now apply Hlimit.
    assert (Hrange : boundingBox first = boundingBox second).
    { unfold boundingBox. rewrite !xLists_coordinates, !yLists_coordinates.
      now rewrite Hsame. }
    rewrite (generateSVG_returns first Hfirst), (generateSVG_returns second Hsecond).
    rewrite Hrange. do 2 f_equal.
    f_equal. rewrite !pathElements_coordinates. now rewrite Hsame.
  - assert (Hsecond : ~ withinSpreadLimit second) by (intros H; now apply Hfirst, Hlimit).
    now rewrite (generateSVG_throws first Hfirst), (generateSVG_throws second Hsecond).
Qed.

Lemma dataRows_tableFields (datasets : list DataSet) :
  dataRows datasets
  = flat_map
      (fun fields =>
         map (fun cell =>
                let '(cx, cvalue, creceive, cstamp) := cell in
                [VNumber cx; VString (formatTimeRaw creceive);
                 VString (match cstamp with
                          | Some stamp => formatTimeRaw stamp
                          | None => EmptyString
                          end);
                 valueOfLabel (fst fields); valueOfPlotValue cvalue])
             (snd fields))
      (map tableFields datasets).
Proof.
  unfold dataRows. induction datasets as [| dataset datasets IH]; [reflexivity |].
  cbn [map flat_map]. rewrite IH. f_equal.
  unfold tableFields. cbn [fst snd]. rewrite map_map. reflexivity.
Qed.

(** X9: the table [generateCSV] returns depends on the labels and on the [x],
    the value and the timestamps of the points, not on their [y]: two lists
    of datasets that agree on these give the same table. *)
Theorem generateCSV_ignores_y (first second : list DataSet) (xAxisVal : PlotXAxisVal) :
  map tableFields first = map tableFields second ->
  generateCSV first xAxisVal = generateCSV second xAxisVal.
Proof.
  intros Hsame. unfold generateCSV.
  now rewrite !combinedLines_rows, !dataRows_tableFields, Hsame.
Qed.

End EncoderInputs.

(** [generateSVG_reads_coordinates_only] on the segment and its relabelling. *)
Lemma generateSVG_reads_coordinates_only_witness :
  generateSVG (segment 10 10) = generateSVG relabelledSegment.
Proof.
  apply generateSVG_reads_coordinates_only. vm_compute. reflexivity.
Defined.

(** [generateCSV_ignores_y] on the segment and the segment with other
    ordinates. *)
Lemma generateCSV_ignores_y_witness :
  generateCSV (segment 10 10) "timestamp" = generateCSV flattenedSegment "timestamp".
Proof.
  apply generateCSV_ignores_y. vm_compute. reflexivity.
Defined.

(** ** The ends of an axis *)

Lemma tickValue_first (lo hi : number) :
  isFinite lo = true -> isFinite (sub hi lo) = true ->
  tickValue lo hi (lit 0%Z) = lo
  \/ (exists s s', lo = S754_zero s /\ tickValue lo hi (lit 0%Z) = S754_zero s').
Proof.
  intros Hlo. unfold tickValue. cbn [lit plus minus times over binary64].
  change (div (ofZ 0) (ofZ 10)) with (S754_zero false).
  destruct (sub hi lo) as [t | t | | t m e]; intros Hwidth; try discriminate Hwidth;
    destruct lo as [s | s | | s m' e']; try discriminate Hlo;
    first [ left; reflexivity
          | right; destruct s, t; do 2 eexists; split; reflexivity ].
Qed.

Lemma overflow_later_ticks :
  Forall (fun i => mul Infinity (div (ofZ i) (ofZ 10)) = Infinity)
         [1; 2; 3; 4; 5; 6; 7; 8; 9; 10]%Z.
Proof. repeat constructor. Qed.

Section AxisEnds.

Context {host : Host}.

(** X10: when the lower bound of an axis and the width [hi - lo] are finite,
    the first tick is labelled with the lower bound itself, printed by
    [toFixed]: no rounding of the tick formula shows at index 0. *)
Theorem first_tick_is_lower_bound (lo hi : number) (digits : Z) :
  isFinite lo = true -> isFinite (sub hi lo) = true ->
  tickLabel lo hi digits 0 = returned (toFixed shortestDecimal lo digits).
Proof.
  intros Hlo Hwidth. unfold tickLabel.
  destruct (tickValue_first lo hi Hlo Hwidth) as [E | (s & s' & E & E')].
  - now rewrite E.
  - rewrite E', E. reflexivity.
Qed.

(** X11: when the lower bound is finite and the width [hi - lo] overflows to
    [Infinity], the first tick is labelled [NaN] (from [Infinity * 0]) and the
    ten others [Infinity]. *)
Theorem overflowing_width_labels (lo hi : number) (digits : Z) :
  (0 <= digits <= 100)%Z ->
  isFinite lo = true -> sub hi lo = Infinity ->
  tickLabel lo hi digits 0 = "NaN"
  /\ Forall (fun i => tickLabel lo hi digits i = "Infinity")
            [1; 2; 3; 4; 5; 6; 7; 8; 9; 10]%Z.
Proof.
  intros Hdigits Hlo Hwidth.
  assert (Hrange : ((digits <? 0) || (100 <? digits))%Z = false).
  { apply orb_false_iff. split; apply Z.ltb_ge; lia. }
  split.
  - unfold tickLabel, tickValue. cbn [lit plus minus times over binary64].
    rewrite Hwidth. change (mul Infinity (div (ofZ 0) (ofZ 10))) with NaN.
    replace (add lo NaN) with NaN by (destruct lo; reflexivity).
    unfold toFixed. rewrite Hrange. reflexivity.
  - eapply Forall_impl; [| exact overflow_later_ticks].
    intros i Hi. unfold tickLabel, tickValue. cbn [lit plus minus times over binary64].
    rewrite Hwidth, Hi.
    replace (add lo Infinity) with Infinity
      by (destruct lo as [s | s | | s m e]; try discriminate Hlo; reflexivity).
    unfold toFixed. rewrite Hrange. reflexivity.
Qed.

End AxisEnds.

(** [first_tick_is_lower_bound] on the axis from [0.5] to [39], one digit. *)
Lemma first_tick_is_lower_bound_witness :
  @tickLabel sampleHost (div (ofZ 1) (ofZ 2)) (ofZ 39) 1 0 = "0.5".
Proof.
  etransitivity.
  - apply (@first_tick_is_lower_bound sampleHost); vm_compute; reflexivity.
  - vm_compute. reflexivity.
Defined.

(** [overflowing_width_labels] on the axis from [- 2^1023] to [2^1023]. *)
Lemma overflowing_width_labels_witness :
  @tickLabel sampleHost (ofZ (- 2 ^ 1023)) (ofZ (2 ^ 1023)) 1 0 = "NaN"
  /\ Forall (fun i => @tickLabel sampleHost (ofZ (- 2 ^ 1023)) (ofZ (2 ^ 1023)) 1 i
                      = "Infinity")
            [1; 2; 3; 4; 5; 6; 7; 8; 9; 10]%Z.
Proof.
  apply (@overflowing_width_labels sampleHost); [lia | |]; vm_compute; reflexivity.
Defined.
